(** * Orchestration core of the run server: flow-run model layer and task-run routes

    A shallow embedding of [prefect/server/models/flow_runs.py] and
    [prefect/server/api/task_runs.py].

    - database tables are lists of row records, SQL statements are list
      functions ([filter], [map], [existsb]) over them;
    - a coroutine running against a session is a function from the database
      to an outcome (returned value or raised exception), the database it
      leaves behind and the events it emitted, in order;
    - the rule scopes of one transition attempt are an explicit exit stack,
      with the protocol of [contextlib.AsyncExitStack];
    - collaborators whose code lives in other packages (policies, rules, the
      orchestration context, [run_history], the task-run model layer) are
      arguments of the functions that call them; [TaskRunModels] gives the
      create operation of the task-run model layer as the specification
      describes it. *)

From Stdlib Require Import ZArith String List Bool Lia Permutation.
From Stdlib Require Sorted.
Import ListNotations.

Set Implicit Arguments.

(* ================================================================== *)
(** ** Schemas: states, runs, responses                                 *)
(* ================================================================== *)

Module Schemas.

Definition UUID := Z.

(** A UTC instant, in microseconds (the resolution of [pendulum.now]). *)
Definition DateTime := Z.

(** Modelled from the spec: the lifecycle stages of the glossary; the enum
    itself ([schemas.states.StateType]) is declared outside the two files. *)
Inductive StateType :=
| SCHEDULED | PENDING | RUNNING | COMPLETED | FAILED
| CANCELLED | CRASHED | PAUSED | CANCELLING.

Record State := {
  state_type : StateType;
  state_timestamp : DateTime;
  state_message : option string
}.

(** Modelled from the spec: [schemas.states.Pending()] builds a state of type
    PENDING stamped with the current time. *)
Definition Pending (timestamp : DateTime) : State :=
  {| state_type := PENDING; state_timestamp := timestamp; state_message := None |}.

Inductive SetStateStatus := ACCEPT | REJECT | ABORT | WAIT.

Record OrchestrationResult := {
  res_state : option State;
  res_status : SetStateStatus;
  res_details : string
}.

(** [schemas.core.FlowRun] as [create_flow_run] reads it. *)
Record FlowRunCreate := {
  frc_flow_id : UUID;
  frc_deployment_id : option UUID;
  frc_work_queue_id : option UUID;
  frc_name : string;
  frc_tags : list string;
  frc_idempotency_key : option string;
  frc_state : option State
}.

(** [schemas.actions.FlowRunUpdate]: every field is optional, an unset one
    is left out of the UPDATE ([exclude_unset=True]). *)
Record FlowRunUpdate := {
  upd_name : option string;
  upd_tags : option (list string)
}.

(** A row of the flow-run table ([db.FlowRun]). *)
Record FlowRun := {
  fr_id : UUID;
  fr_flow_id : UUID;
  fr_deployment_id : option UUID;
  fr_work_queue_id : option UUID;
  fr_name : string;
  fr_tags : list string;
  fr_idempotency_key : option string;
  fr_created : DateTime;
  fr_state : option State
}.

Record Flow := { fl_id : UUID; fl_name : string }.
Record Deployment := { dp_id : UUID; dp_name : string }.
Record WorkPool := { wp_id : UUID; wp_name : string }.
Record WorkQueue := { wq_id : UUID; wq_work_pool_id : UUID; wq_name : string }.

(** A row of the task-run table ([db.TaskRun]). *)
Record TaskRun := {
  tr_id : UUID;
  tr_flow_run_id : option UUID;
  tr_task_key : string;
  tr_dynamic_key : string;
  tr_created : DateTime;
  tr_state : option State
}.

(** [schemas.actions.TaskRunCreate] and the hydrated [schemas.core.TaskRun]
    carry the same fields here. *)
Record TaskRunCreate := {
  trc_flow_run_id : option UUID;
  trc_task_key : string;
  trc_dynamic_key : string;
  trc_state : option State
}.

(** Filters denote the predicate their [as_sql_filter] renders. *)
Definition FlowFilter := Flow -> bool.
Definition FlowRunFilter := FlowRun -> bool.
Definition TaskRunFilter := TaskRun -> bool.
Definition DeploymentFilter := Deployment -> bool.
Definition WorkPoolFilter := WorkPool -> bool.
Definition WorkQueueFilter := WorkQueue -> bool.

(** A sort denotes the row order its [as_sql_sort] renders: [le a b] holds
    when [a] may come before [b]. *)
Definition FlowRunSort := FlowRun -> FlowRun -> bool.

Definition ID_DESC : FlowRunSort := fun a b => (fr_id b <=? fr_id a)%Z.

(** SQL equality of a primary key with a nullable foreign key: false on NULL. *)
Definition fk_eq (pk : UUID) (fk : option UUID) : bool :=
  match fk with
  | Some k => (pk =? k)%Z
  | None => false
  end.

(** Python truthiness of an optional string: None and the empty string are falsy. *)
Definition truthy (s : option string) : bool :=
  match s with
  | Some EmptyString => false
  | Some _ => true
  | None => false
  end.

Definition same_key (a b : option string) : bool :=
  match a, b with
  | Some x, Some y => String.eqb x y
  | _, _ => false
  end.

End Schemas.

Export Schemas.

(* ================================================================== *)
(** ** Exceptions, orchestration context, rules                         *)
(* ================================================================== *)

Module Orchestration.

Inductive Exc :=
| ObjectNotFoundError (flow_run_id : UUID)
| HTTPException (status_code : Z) (detail : string)
| IntegrityError
| AttributeError
| RuleError (tag : nat).

Inductive Outcome (A : Type) :=
| Returned (a : A)
| Raised (e : Exc).

Arguments Raised {A} e.

(** The working state of one transition attempt.  One object is shared by
    the engine and every rule of the chain; [ctx_run] is the session's row
    object for the run. *)
Record OrchestrationContext := {
  ctx_run : FlowRun;
  initial_state : option State;
  proposed_state : option State;
  validated_state : option State;
  parameters : list (string * string);
  response_status : SetStateStatus;
  response_details : string;
  orchestration_error : option Exc
}.

Definition set_parameters (c : OrchestrationContext) (p : list (string * string)) :=
  {| ctx_run := ctx_run c;
     initial_state := initial_state c;
     proposed_state := proposed_state c;
     validated_state := validated_state c;
     parameters := p;
     response_status := response_status c;
     response_details := response_details c;
     orchestration_error := orchestration_error c |}.

Definition Transition := (option StateType * option StateType)%type.

(** A rule class.  [rule(context, *intended_transition)] followed by
    [__aenter__] is [aenter]; [__aexit__(exc_type, exc, tb)] is [aexit],
    which returns the suppress flag or raises.  Both work on the shared
    context and their changes to it stay when they raise. *)
Record Rule := {
  rule_name : string;
  aenter : Transition -> OrchestrationContext -> OrchestrationContext * Outcome unit;
  aexit : Transition -> option Exc -> OrchestrationContext -> OrchestrationContext * Outcome bool
}.

Record Policy := {
  compile_transition_rules : option StateType -> option StateType -> list Rule
}.

(** What [set_flow_run_state] imports from the orchestration package. *)
Record Engine := {
  MinimalFlowPolicy : Policy;
  GlobalFlowPolicy : Policy;
  FlowOrchestrationContext : FlowRun -> option State -> option State -> OrchestrationContext;
  validate_proposed_state : OrchestrationContext -> OrchestrationContext * Outcome unit
}.

Inductive Event :=
| EvSelectForUpdate (flow_run_id : UUID)
| EvEnter (r : Rule)
| EvEnterRaised (r : Rule) (e : Exc)
| EvValidate
| EvExit (r : Rule)
| EvQueueNotifications (flow_run_id : UUID)
| EvSessionOpen (begin_transaction : bool).

End Orchestration.

Export Orchestration.

(* ================================================================== *)
(** ** The database and sessions                                        *)
(* ================================================================== *)

Module Db.

Record Database := {
  flow_run_table : list FlowRun;
  flow_table : list Flow;
  task_run_table : list TaskRun;
  deployment_table : list Deployment;
  work_queue_table : list WorkQueue;
  work_pool_table : list WorkPool;
  (** the server-side default of a new row's id *)
  next_id : UUID
}.

Definition with_flow_runs (db : Database) (rows : list FlowRun) (next : UUID) : Database :=
  {| flow_run_table := rows;
     flow_table := flow_table db;
     task_run_table := task_run_table db;
     deployment_table := deployment_table db;
     work_queue_table := work_queue_table db;
     work_pool_table := work_pool_table db;
     next_id := next |}.

Definition with_task_runs (db : Database) (rows : list TaskRun) : Database :=
  {| flow_run_table := flow_run_table db;
     flow_table := flow_table db;
     task_run_table := rows;
     deployment_table := deployment_table db;
     work_queue_table := work_queue_table db;
     work_pool_table := work_pool_table db;
     next_id := next_id db |}.

(** A coroutine awaited on a session: the outcome, the database it leaves
    and the events it emitted, oldest first.  A raised exception keeps the
    writes made before it; undoing them is the transaction's business. *)
Definition Session (A : Type) := Database -> Outcome A * Database * list Event.

Definition ret {A} (a : A) : Session A := fun db => (Returned a, db, []).

Definition raise {A} (e : Exc) : Session A := fun db => (Raised e, db, []).

Definition bind {A B} (m : Session A) (k : A -> Session B) : Session B :=
  fun db =>
    match m db with
    | (Returned a, db1, ev1) =>
        let '(o, db2, ev2) := k a db1 in (o, db2, ev1 ++ ev2)
    | (Raised e, db1, ev1) => (Raised e, db1, ev1)
    end.

Definition emit (e : Event) : Session unit := fun db => (Returned tt, db, [e]).

Declare Scope session_scope.
Delimit Scope session_scope with session.

Notation "x <- m ;; k" := (bind m (fun x => k))
  (at level 61, m at next level, right associativity) : session_scope.
Notation "m ;;; k" := (bind m (fun _ => k))
  (at level 61, right associativity) : session_scope.

Definition outcome {A} (r : Outcome A * Database * list Event) : Outcome A := fst (fst r).
Definition final_db {A} (r : Outcome A * Database * list Event) : Database := snd (fst r).
Definition events {A} (r : Outcome A * Database * list Event) : list Event := snd r.

(** *** SQL statements over the flow-run table *)

(** [UPDATE ... WHERE p SET f]: the new rows and the rowcount. *)
Definition sql_update (p : FlowRun -> bool) (f : FlowRun -> FlowRun)
    (rows : list FlowRun) : list FlowRun * nat :=
  (map (fun r => if p r then f r else r) rows, length (filter p rows)).

(** [DELETE ... WHERE p]: the rows kept and the rowcount. *)
Definition sql_delete (p : FlowRun -> bool) (rows : list FlowRun) : list FlowRun * nat :=
  (filter (fun r => negb (p r)) rows, length (filter p rows)).

(** The unique index behind [db.flow_run_unique_upsert_columns]: flow id and
    idempotency key; rows with a NULL key never conflict. *)
Definition conflicts (flow_id : UUID) (key : option string) (r : FlowRun) : bool :=
  (fr_flow_id r =? flow_id)%Z && same_key (fr_idempotency_key r) key.

(** Modelled from the spec: deleting a run cascades to the nested runs it
    owns (the foreign key of the task-run table). *)
Definition cascade (deleted : list UUID) (rows : list TaskRun) : list TaskRun :=
  filter (fun t => negb (existsb (fun i => fk_eq i (tr_flow_run_id t)) deleted)) rows.

(** ORDER BY, as a stable insertion sort.  SQL leaves the order of tied
    rows open; the sort here keeps them in table order, and a property that
    depends on their place is stated for sorts without ties. *)
Fixpoint insert_row (le : FlowRunSort) (x : FlowRun) (l : list FlowRun) : list FlowRun :=
  match l with
  | [] => [x]
  | y :: t => if le x y then x :: l else y :: insert_row le x t
  end.

Definition order_by (le : FlowRunSort) (rows : list FlowRun) : list FlowRun :=
  fold_right (insert_row le) [] rows.

(** [Result.unique()]: ORM entities are uniquified by identity, that is by
    primary key; the first occurrence stays. *)
Fixpoint unique (seen : list UUID) (rows : list FlowRun) : list FlowRun :=
  match rows with
  | [] => []
  | r :: t =>
      if existsb (Z.eqb (fr_id r)) seen then unique seen t
      else r :: unique (fr_id r :: seen) t
  end.

Inductive SelectList := SelectFlowRun | SelectCountStar.

(** A SELECT on the flow-run table under construction.  Each [where] call
    adds a conjunct; a conjunct may look at other tables (EXISTS). *)
Record Query := {
  q_select : SelectList;
  q_where : list (Database -> FlowRun -> bool);
  q_order_by : option FlowRunSort;
  q_offset : option nat;
  q_limit : option nat
}.

Definition where_ (q : Query) (clause : Database -> FlowRun -> bool) : Query :=
  {| q_select := q_select q;
     q_where := q_where q ++ [clause];
     q_order_by := q_order_by q;
     q_offset := q_offset q;
     q_limit := q_limit q |}.

Definition offset_ (q : Query) (n : nat) : Query :=
  {| q_select := q_select q;
     q_where := q_where q;
     q_order_by := q_order_by q;
     q_offset := Some n;
     q_limit := q_limit q |}.

Definition limit_ (q : Query) (n : nat) : Query :=
  {| q_select := q_select q;
     q_where := q_where q;
     q_order_by := q_order_by q;
     q_offset := q_offset q;
     q_limit := Some n |}.

Definition matching (q : Query) (db : Database) : list FlowRun :=
  filter (fun r => forallb (fun clause => clause db r) (q_where q)) (flow_run_table db).

Definition ordered (q : Query) (rows : list FlowRun) : list FlowRun :=
  match q_order_by q with
  | Some le => order_by le rows
  | None => rows
  end.

Definition window (q : Query) (rows : list FlowRun) : list FlowRun :=
  let rows := match q_offset q with Some n => skipn n rows | None => rows end in
  match q_limit q with Some n => firstn n rows | None => rows end.

(** What [session.execute(query)] hands back: entity rows, or the single
    value of a COUNT select. *)
Inductive QueryResult :=
| Rows (rows : list FlowRun)
| Count (n : nat).

Definition execute (q : Query) : Session QueryResult :=
  fun db =>
    match q_select q with
    | SelectFlowRun => (Returned (Rows (window q (ordered q (matching q db)))), db, [])
    | SelectCountStar => (Returned (Count (length (matching q db))), db, [])
    end.

End Db.

Export Db.

(* ================================================================== *)
(** ** models/flow_runs.py                                              *)
(* ================================================================== *)

Module FlowRuns.

Local Open Scope session_scope.

(** *** The rule scopes of one attempt ([contextlib.AsyncExitStack]) *)

(** The two [for rule in ...] loops: enter each rule in turn, pushing its
    exit callback; the first rule whose entry raises ends the loop and is
    not pushed. *)
Fixpoint enter_rules (t : Transition) (rules : list Rule)
    (context : OrchestrationContext) (stack : list Rule)
    : OrchestrationContext * list Rule * option Exc * list Event :=
  match rules with
  | [] => (context, stack, None, [])
  | rule :: rest =>
      match aenter rule t context with
      | (context', Returned _) =>
          let '(c, s, x, ev) := enter_rules t rest context' (rule :: stack) in
          (c, s, x, EvEnter rule :: ev)
      | (context', Raised e) => (context', stack, Some e, [EvEnterRaised rule e])
      end
  end.

(** The body of the [async with] block. *)
Definition with_body (eng : Engine) (t : Transition)
    (orchestration_rules global_rules : list Rule) (context : OrchestrationContext)
    : OrchestrationContext * list Rule * option Exc * list Event :=
  let '(c1, s1, x1, ev1) := enter_rules t orchestration_rules context [] in
  match x1 with
  | Some e => (c1, s1, Some e, ev1)
  | None =>
      let '(c2, s2, x2, ev2) := enter_rules t global_rules c1 s1 in
      match x2 with
      | Some e => (c2, s2, Some e, ev1 ++ ev2)
      | None =>
          match validate_proposed_state eng c2 with
          | (c3, Returned _) => (c3, s2, None, ev1 ++ ev2 ++ [EvValidate])
          | (c3, Raised e) => (c3, s2, Some e, ev1 ++ ev2 ++ [EvValidate])
          end
      end
  end.

(** [AsyncExitStack.__aexit__]: callbacks run last-in first-out, each given
    the exception now pending; a callback that returns true clears it, one
    that raises replaces it. *)
Fixpoint unwind (t : Transition) (stack : list Rule) (exc_details : option Exc)
    (context : OrchestrationContext)
    : OrchestrationContext * option Exc * list Event :=
  match stack with
  | [] => (context, exc_details, [])
  | cb :: rest =>
      let '(context', r) := aexit cb t exc_details context in
      let exc_details' :=
        match r with
        | Returned suppress => if suppress then None else exc_details
        | Raised e => Some e
        end in
      let '(c, x, ev) := unwind t rest exc_details' context' in
      (c, x, EvExit cb :: ev)
  end.

(** The whole [async with contextlib.AsyncExitStack() as stack] statement:
    the context as the scopes left it, and the exception that leaves the
    statement, if any. *)
Definition orchestrate (eng : Engine) (t : Transition)
    (orchestration_rules global_rules : list Rule) (context : OrchestrationContext)
    : OrchestrationContext * option Exc * list Event :=
  let '(c, stack, x, ev1) := with_body eng t orchestration_rules global_rules context in
  let '(c', x', ev2) := unwind t stack x c in
  (c', x', ev1 ++ ev2).

(** *** Single-row operations *)

Definition read_flow_run (flow_run_id : UUID) (for_update : bool)
    : Session (option FlowRun) :=
  fun db =>
    (Returned (find (fun r => (fr_id r =? flow_run_id)%Z) (flow_run_table db)),
     db,
     if for_update then [EvSelectForUpdate flow_run_id] else []).

Definition apply_update (u : FlowRunUpdate) (r : FlowRun) : FlowRun :=
  {| fr_id := fr_id r;
     fr_flow_id := fr_flow_id r;
     fr_deployment_id := fr_deployment_id r;
     fr_work_queue_id := fr_work_queue_id r;
     fr_name := match upd_name u with Some n => n | None => fr_name r end;
     fr_tags := match upd_tags u with Some l => l | None => fr_tags r end;
     fr_idempotency_key := fr_idempotency_key r;
     fr_created := fr_created r;
     fr_state := fr_state r |}.

Definition update_flow_run (flow_run_id : UUID) (flow_run : FlowRunUpdate)
    : Session bool :=
  fun db =>
    let '(rows, rowcount) :=
      sql_update (fun r => (fr_id r =? flow_run_id)%Z) (apply_update flow_run)
        (flow_run_table db) in
    (Returned (0 <? rowcount), with_flow_runs db rows (next_id db), []).

Definition delete_flow_run (flow_run_id : UUID) : Session bool :=
  fun db =>
    let p := fun r => (fr_id r =? flow_run_id)%Z in
    let '(rows, rowcount) := sql_delete p (flow_run_table db) in
    let deleted := map fr_id (filter p (flow_run_table db)) in
    (Returned (0 <? rowcount),
     with_task_runs (with_flow_runs db rows (next_id db))
       (cascade deleted (task_run_table db)),
     []).

(** *** Filtered queries *)

Definition exists_deployment (f : DeploymentFilter) (db : Database) (r : FlowRun) : bool :=
  existsb (fun d => fk_eq (dp_id d) (fr_deployment_id r) && f d) (deployment_table db).

Definition exists_work_pool (f : WorkPoolFilter) (db : Database) (r : FlowRun) : bool :=
  existsb (fun p =>
    existsb (fun q =>
      fk_eq (wq_id q) (fr_work_queue_id r)
      && (wp_id p =? wq_work_pool_id q)%Z
      && f p) (work_queue_table db)) (work_pool_table db).

Definition exists_work_queue (f : WorkQueueFilter) (db : Database) (r : FlowRun) : bool :=
  existsb (fun q => fk_eq (wq_id q) (fr_work_queue_id r) && f q) (work_queue_table db).

Definition exists_flow (f : FlowFilter) (db : Database) (r : FlowRun) : bool :=
  existsb (fun fl => (fl_id fl =? fr_flow_id r)%Z && f fl) (flow_table db).

Definition exists_task_run (f : TaskRunFilter) (db : Database) (r : FlowRun) : bool :=
  existsb (fun t =>
    fk_eq (fr_id r) (tr_flow_run_id t)
    && fk_eq (fr_id r) (tr_flow_run_id t)
    && f t) (task_run_table db).

Definition exists_flow_join_task_run (ff : FlowFilter) (tf : TaskRunFilter)
    (db : Database) (r : FlowRun) : bool :=
  existsb (fun fl =>
    existsb (fun t =>
      fk_eq (fr_id r) (tr_flow_run_id t)
      && ((fl_id fl =? fr_flow_id r)%Z && ff fl)
      && (fk_eq (fr_id r) (tr_flow_run_id t) && tf t)) (task_run_table db)) (flow_table db).

Definition where_if {F : Type} (filter : option F)
    (clause : F -> Database -> FlowRun -> bool) (query : Query) : Query :=
  match filter with
  | Some f => where_ query (clause f)
  | None => query
  end.

Definition _apply_flow_run_filters (query : Query)
    (flow_filter : option FlowFilter)
    (flow_run_filter : option FlowRunFilter)
    (task_run_filter : option TaskRunFilter)
    (deployment_filter : option DeploymentFilter)
    (work_pool_filter : option WorkPoolFilter)
    (work_queue_filter : option WorkQueueFilter) : Query :=
  let query := where_if flow_run_filter (fun f _ r => f r) query in
  let query := where_if deployment_filter exists_deployment query in
  let query := where_if work_pool_filter exists_work_pool query in
  let query := where_if work_queue_filter exists_work_queue query in
  match flow_filter, task_run_filter with
  | None, None => query
  | Some ff, None => where_ query (exists_flow ff)
  | None, Some tf => where_ query (exists_task_run tf)
  | Some ff, Some tf => where_ query (exists_flow_join_task_run ff tf)
  end.

Definition read_flow_runs
    (flow_filter : option FlowFilter)
    (flow_run_filter : option FlowRunFilter)
    (task_run_filter : option TaskRunFilter)
    (deployment_filter : option DeploymentFilter)
    (work_pool_filter : option WorkPoolFilter)
    (work_queue_filter : option WorkQueueFilter)
    (offset limit : option nat) (sort : FlowRunSort) : Session (list FlowRun) :=
  let query :=
    {| q_select := SelectFlowRun; q_where := []; q_order_by := Some sort;
       q_offset := None; q_limit := None |} in
  let query := _apply_flow_run_filters query flow_filter flow_run_filter
                 task_run_filter deployment_filter work_pool_filter work_queue_filter in
  let query := match offset with Some n => offset_ query n | None => query end in
  let query := match limit with Some n => limit_ query n | None => query end in
  result <- execute query ;;
  match result with
  | Rows rows => ret (unique [] rows)
  | Count _ => ret []
  end.

Definition count_flow_runs
    (flow_filter : option FlowFilter)
    (flow_run_filter : option FlowRunFilter)
    (task_run_filter : option TaskRunFilter)
    (deployment_filter : option DeploymentFilter)
    (work_pool_filter : option WorkPoolFilter)
    (work_queue_filter : option WorkQueueFilter) : Session nat :=
  let query :=
    {| q_select := SelectCountStar; q_where := []; q_order_by := None;
       q_offset := None; q_limit := None |} in
  let query := _apply_flow_run_filters query flow_filter flow_run_filter
                 task_run_filter deployment_filter work_pool_filter work_queue_filter in
  result <- execute query ;;
  match result with
  | Count n => ret n
  | Rows rows => ret (length rows)
  end.

(** *** The orchestration engine *)

(** [force or flow_policy is None] selects the minimal policy. *)
Definition effective_policy (eng : Engine) (force : bool) (flow_policy : option Policy)
    : Policy :=
  match flow_policy with
  | Some p => if force then MinimalFlowPolicy eng else p
  | None => MinimalFlowPolicy eng
  end.

(** The run object held by the context is the session's own row object:
    what the scopes did to it is what the session now holds for that row. *)
Definition flush_run (flow_run_id : UUID) (run : FlowRun) : Session unit :=
  fun db =>
    (Returned tt,
     with_flow_runs db
       (map (fun r => if (fr_id r =? flow_run_id)%Z then run else r) (flow_run_table db))
       (next_id db),
     []).

(** The [async with] statement run against the session: an exception that
    leaves the statement is raised to the caller of [set_flow_run_state]. *)
Definition apply_rules (eng : Engine) (flow_run_id : UUID) (t : Transition)
    (orchestration_rules global_rules : list Rule) (context : OrchestrationContext)
    : Session OrchestrationContext :=
  fun db =>
    let '(c, x, ev) := orchestrate eng t orchestration_rules global_rules context in
    let '(_, db', _) := flush_run flow_run_id (ctx_run c) db in
    match x with
    | Some e => (Raised e, db', ev)
    | None => (Returned c, db', ev)
    end.

(** The notification policies are a black box: one call, recorded. *)
Definition queue_flow_run_notifications (flow_run : FlowRun) : Session unit :=
  emit (EvQueueNotifications (fr_id flow_run)).

(** The pair of state types the attempt is about; a missing state has no type. *)
Definition intended_transition (run : FlowRun) (state : option State) : Transition :=
  let initial_state := fr_state run in
  let initial_state_type := option_map state_type initial_state in
  let proposed_state_type := option_map state_type state in
  (initial_state_type, proposed_state_type).

Definition orchestration_rules (eng : Engine) (force : bool)
    (flow_policy : option Policy) (t : Transition) : list Rule :=
  compile_transition_rules (effective_policy eng force flow_policy) (fst t) (snd t).

Definition global_rules (eng : Engine) (t : Transition) : list Rule :=
  compile_transition_rules (GlobalFlowPolicy eng) (fst t) (snd t).

(** The context of the attempt, with the caller's parameters when given. *)
Definition build_context (eng : Engine) (run : FlowRun) (state : option State)
    (orchestration_parameters : option (list (string * string)))
    : OrchestrationContext :=
  let context := FlowOrchestrationContext eng run (fr_state run) state in
  match orchestration_parameters with
  | Some p => set_parameters context p
  | None => context
  end.

Definition result_of (context : OrchestrationContext) : OrchestrationResult :=
  {| res_state := validated_state context;
     res_status := response_status context;
     res_details := response_details context |}.

Definition set_flow_run_state (eng : Engine) (flow_run_id : UUID)
    (state : option State) (force : bool) (flow_policy : option Policy)
    (orchestration_parameters : option (list (string * string)))
    : Session OrchestrationResult :=
  run <- read_flow_run flow_run_id true ;;
  match run with
  | None => raise (ObjectNotFoundError flow_run_id)
  | Some run =>
      let t := intended_transition run state in
      let context := build_context eng run state orchestration_parameters in
      context <- apply_rules eng flow_run_id t
                   (orchestration_rules eng force flow_policy t)
                   (global_rules eng t) context ;;
      match orchestration_error context with
      | Some e => raise e
      | None =>
          let result := result_of context in
          match res_status result with
          | ACCEPT | REJECT => queue_flow_run_notifications run ;;; ret result
          | ABORT | WAIT => ret result
          end
      end
  end.

(** *** Creation *)

Definition new_flow_run (flow_run : FlowRunCreate) (now : DateTime) (id : UUID) : FlowRun :=
  {| fr_id := id;
     fr_flow_id := frc_flow_id flow_run;
     fr_deployment_id := frc_deployment_id flow_run;
     fr_work_queue_id := frc_work_queue_id flow_run;
     fr_name := frc_name flow_run;
     fr_tags := frc_tags flow_run;
     fr_idempotency_key := frc_idempotency_key flow_run;
     fr_created := now;
     fr_state := None |}.

(** [session.add(model); await session.flush()]: the INSERT fails on the
    unique index. *)
Definition add_and_flush (flow_run : FlowRunCreate) (now : DateTime) : Session FlowRun :=
  fun db =>
    if existsb (conflicts (frc_flow_id flow_run) (frc_idempotency_key flow_run))
         (flow_run_table db)
    then (Raised IntegrityError, db, [])
    else
      let model := new_flow_run flow_run now (next_id db) in
      (Returned model,
       with_flow_runs db (flow_run_table db ++ [model]) (next_id db + 1)%Z,
       []).

(** [INSERT ... ON CONFLICT DO NOTHING] on the unique index. *)
Definition insert_on_conflict_do_nothing (flow_run : FlowRunCreate) (now : DateTime)
    : Session unit :=
  fun db =>
    if existsb (conflicts (frc_flow_id flow_run) (frc_idempotency_key flow_run))
         (flow_run_table db)
    then (Returned tt, db, [])
    else
      (Returned tt,
       with_flow_runs db
         (flow_run_table db ++ [new_flow_run flow_run now (next_id db)])
         (next_id db + 1)%Z,
       []).

(** The read-back: first row with this flow id and idempotency key. *)
Definition read_back (flow_run : FlowRunCreate) : Session (option FlowRun) :=
  fun db =>
    (Returned
       (find (fun r => (fr_flow_id r =? frc_flow_id flow_run)%Z
                       && same_key (fr_idempotency_key r) (frc_idempotency_key flow_run))
          (flow_run_table db)),
     db, []).

(** [now] is the reading of [pendulum.now] that opens the call. *)
Definition create_flow_run (eng : Engine) (now : DateTime) (flow_run : FlowRunCreate)
    (orchestration_parameters : option (list (string * string)))
    : Session FlowRun :=
  model <-
    (if negb (truthy (frc_idempotency_key flow_run))
     then
       model <- add_and_flush flow_run now ;;
       ret (Some model)
     else
       insert_on_conflict_do_nothing flow_run now ;;;
       read_back flow_run) ;;
  match model with
  | None => raise AttributeError
  | Some model =>
      match frc_state flow_run with
      | Some state =>
          if (fr_created model =? now)%Z
          then
            set_flow_run_state eng (fr_id model) (Some state) true None
              orchestration_parameters ;;;
            refreshed <- read_flow_run (fr_id model) false ;;
            match refreshed with
            | Some model' => ret model'
            | None => ret model
            end
          else ret model
      | None => ret model
      end
  end.

End FlowRuns.

(* ================================================================== *)
(** ** api/task_runs.py                                                 *)
(* ================================================================== *)

Module TaskRunsApi.

Local Open Scope session_scope.
Local Open Scope Z_scope.

(** [datetime.timedelta], as the three integers it stores. *)
Record timedelta := {
  days : Z;
  seconds : Z;
  microseconds : Z
}.

(** Every [timedelta] object is kept normalised by its constructor. *)
Definition normalized (d : timedelta) : Prop :=
  0 <= seconds d < 86400 /\ 0 <= microseconds d < 1000000.

Definition total_microseconds (d : timedelta) : Z :=
  (days d * 86400 + seconds d) * 1000000 + microseconds d.

(** [datetime.timedelta(seconds=s)] for an integer [s]. *)
Definition timedelta_of_seconds (s : Z) : timedelta :=
  {| days := s / 86400; seconds := s mod 86400; microseconds := 0 |}.

(** Comparison of two timedeltas: of their states, as tuples. *)
Definition timedelta_cmp (a b : timedelta) : comparison :=
  match days a ?= days b with
  | Eq =>
      match seconds a ?= seconds b with
      | Eq => microseconds a ?= microseconds b
      | c => c
      end
  | c => c
  end.

Definition timedelta_lt (a b : timedelta) : bool :=
  match timedelta_cmp a b with
  | Lt => true
  | _ => false
  end.

Definition HTTP_200_OK : Z := 200.
Definition HTTP_201_CREATED : Z := 201.
Definition HTTP_422_UNPROCESSABLE_ENTITY : Z := 422.

(** Modelled from the spec: [db.session_context] opens a session for the
    body; with [begin_transaction] the body runs in a transaction that is
    rolled back when the body raises. *)
Definition session_context {A} (begin_transaction : bool) (body : Session A) : Session A :=
  fun db =>
    match body db with
    | (Returned a, db', ev) => (Returned a, db', EvSessionOpen begin_transaction :: ev)
    | (Raised e, db', ev) =>
        (Raised e, if begin_transaction then db else db',
         EvSessionOpen begin_transaction :: ev)
    end.

Definition with_state (task_run : TaskRunCreate) (s : State) : TaskRunCreate :=
  {| trc_flow_run_id := trc_flow_run_id task_run;
     trc_task_key := trc_task_key task_run;
     trc_dynamic_key := trc_dynamic_key task_run;
     trc_state := Some s |}.

(** The first statements of [create_task_run]: the hydrated input, given a
    PENDING state when it carries none. *)
Definition hydrate (task_run : TaskRunCreate) (state_timestamp : DateTime)
    : TaskRunCreate :=
  match trc_state task_run with
  | Some _ => task_run
  | None => with_state task_run (Pending state_timestamp)
  end.

Section Routes.

Variable HistoryResponse : Type.

(** [prefect.server.api.run_history.run_history], called with
    [run_type="task_run"]. *)
Variable run_history :
  string -> DateTime -> DateTime -> timedelta ->
  option FlowFilter -> option FlowRunFilter -> option TaskRunFilter ->
  option DeploymentFilter -> Session (list HistoryResponse).

(** [models.task_runs.create_task_run]. *)
Variable models_task_runs_create_task_run :
  TaskRunCreate -> option (list (string * string)) -> Session TaskRun.

(** [state_timestamp] is the clock reading stamped on a default state,
    [now] the reading taken before the session opens.  The result pairs
    the response's status code with its body. *)
Definition create_task_run (task_run : TaskRunCreate)
    (state_timestamp now : DateTime)
    (orchestration_parameters : option (list (string * string)))
    : Session (Z * TaskRun) :=
  let task_run := hydrate task_run state_timestamp in
  model <- session_context true
             (models_task_runs_create_task_run task_run orchestration_parameters) ;;
  let status_code :=
    if now <=? tr_created model then HTTP_201_CREATED else HTTP_200_OK in
  ret (status_code, model).

Definition task_run_history (history_start history_end : DateTime)
    (history_interval : timedelta)
    (flows : option FlowFilter) (flow_runs : option FlowRunFilter)
    (task_runs : option TaskRunFilter) (deployments : option DeploymentFilter)
    : Session (list HistoryResponse) :=
  if timedelta_lt history_interval (timedelta_of_seconds 1)
  then
    raise (HTTPException HTTP_422_UNPROCESSABLE_ENTITY
             "History interval must not be less than 1 second.")
  else
    session_context false
      (run_history "task_run" history_start history_end history_interval
         flows flow_runs task_runs deployments).

End Routes.

End TaskRunsApi.

(* ================================================================== *)
(** ** Reading event traces                                             *)
(* ================================================================== *)

Module Trace.

Definition is_notification (e : Event) : bool :=
  match e with
  | EvQueueNotifications _ => true
  | _ => false
  end.

Definition is_validation (e : Event) : bool :=
  match e with
  | EvValidate => true
  | _ => false
  end.

(** Calls of [queue_flow_run_notifications] in a trace. *)
Definition notifications (ev : list Event) : nat := length (filter is_notification ev).

(** Calls of [validate_proposed_state] in a trace. *)
Definition validations (ev : list Event) : nat := length (filter is_validation ev).

End Trace.

Export Trace.

(* ================================================================== *)
(** ** A small installation, for concrete runs                          *)
(* ================================================================== *)

Module Examples.

Local Open Scope string_scope.
Local Open Scope Z_scope.

(** A rule that lets every transition through. *)
Definition pass_rule (name : string) : Rule :=
  {| rule_name := name;
     aenter := fun _ c => (c, Returned tt);
     aexit := fun _ _ c => (c, Returned false) |}.

Definition with_run_state (r : FlowRun) (s : option State) : FlowRun :=
  {| fr_id := fr_id r;
     fr_flow_id := fr_flow_id r;
     fr_deployment_id := fr_deployment_id r;
     fr_work_queue_id := fr_work_queue_id r;
     fr_name := fr_name r;
     fr_tags := fr_tags r;
     fr_idempotency_key := fr_idempotency_key r;
     fr_created := fr_created r;
     fr_state := s |}.

(** Modelled from the spec: [validate_proposed_state] of section 4.4; with
    no orchestration error and a proposed state, that state becomes the
    run's current state and the validated state. *)
Definition commit_proposed (c : OrchestrationContext)
    : OrchestrationContext * Outcome unit :=
  match orchestration_error c, proposed_state c with
  | None, Some s =>
      ({| ctx_run := with_run_state (ctx_run c) (Some s);
          initial_state := initial_state c;
          proposed_state := proposed_state c;
          validated_state := Some s;
          parameters := parameters c;
          response_status := response_status c;
          response_details := response_details c;
          orchestration_error := None |},
       Returned tt)
  | _, _ => (c, Returned tt)
  end.

Definition new_context (run : FlowRun) (initial proposed : option State)
    : OrchestrationContext :=
  {| ctx_run := run;
     initial_state := initial;
     proposed_state := proposed;
     validated_state := None;
     parameters := [];
     response_status := ACCEPT;
     response_details := "accepted";
     orchestration_error := None |}.

Definition engine : Engine :=
  {| MinimalFlowPolicy := {| compile_transition_rules := fun _ _ => [] |};
     GlobalFlowPolicy :=
       {| compile_transition_rules := fun _ _ => [pass_rule "bookkeeping"] |};
     FlowOrchestrationContext := new_context;
     validate_proposed_state := commit_proposed |}.

Definition empty_db : Database :=
  {| flow_run_table := []; flow_table := []; task_run_table := [];
     deployment_table := []; work_queue_table := []; work_pool_table := [];
     next_id := 1 |}.

Definition nightly : FlowRunCreate :=
  {| frc_flow_id := 7;
     frc_deployment_id := None;
     frc_work_queue_id := None;
     frc_name := "nightly";
     frc_tags := [];
     frc_idempotency_key := Some "job-42";
     frc_state := Some (Pending 1000) |}.

Definition stored_run (id : UUID) (created : DateTime) : FlowRun :=
  FlowRuns.new_flow_run nightly created id.

Definition one_run_db : Database :=
  with_flow_runs empty_db [stored_run 1 900] 2.

Definition rename : FlowRunUpdate :=
  {| upd_name := Some "renamed"; upd_tags := None |}.

Definition extract : TaskRunCreate :=
  {| trc_flow_run_id := Some 1;
     trc_task_key := "extract";
     trc_dynamic_key := "0";
     trc_state := None |}.

(** Two calls of [create_flow_run] for the same run, one after the other,
    with the clock readings [now1] and [now2]. *)
Definition create_twice (eng : Engine) (now1 now2 : DateTime) (flow_run : FlowRunCreate)
    : Session (FlowRun * FlowRun) :=
  Db.bind (FlowRuns.create_flow_run eng now1 flow_run None) (fun first =>
  Db.bind (FlowRuns.create_flow_run eng now2 flow_run None) (fun second =>
  ret (first, second))).

(** A rule whose entry fails inside the rule: it records the error on the
    context and withdraws the proposed state. *)
Definition failing_rule (name : string) : Rule :=
  {| rule_name := name;
     aenter := fun _ c =>
       ({| ctx_run := ctx_run c;
           initial_state := initial_state c;
           proposed_state := None;
           validated_state := validated_state c;
           parameters := parameters c;
           response_status := ABORT;
           response_details := "aborted";
           orchestration_error := Some (RuleError 1) |},
        Returned tt);
     aexit := fun _ _ c => (c, Returned false) |}.

Definition strict_policy : Policy :=
  {| compile_transition_rules := fun _ _ => [failing_rule "veto"] |}.

(** Half a second. *)
Definition half_second : TaskRunsApi.timedelta :=
  {| TaskRunsApi.days := 0; TaskRunsApi.seconds := 0; TaskRunsApi.microseconds := 500000 |}.

(** A history query that answers with no bucket. *)
Definition no_history : string -> DateTime -> DateTime -> TaskRunsApi.timedelta ->
    option FlowFilter -> option FlowRunFilter -> option TaskRunFilter ->
    option DeploymentFilter -> Session (list unit) :=
  fun _ _ _ _ _ _ _ _ => ret [].

End Examples.

(* ================================================================== *)
(** ** api/task_runs.py: the remaining routes                           *)
(* ================================================================== *)

Module TaskRunRoutes.

Import TaskRunsApi.

Local Open Scope session_scope.
Local Open Scope Z_scope.

Definition HTTP_404_NOT_FOUND : Z := 404.

(** [schemas.actions.StateCreate]: a state as a client proposes it. *)
Record StateCreate := {
  sc_type : StateType;
  sc_message : option string
}.

(** [schemas.states.State.parse_obj(state)]: the full state, stamped with
    the clock reading [timestamp]. *)
Definition parse_obj (state : StateCreate) (timestamp : DateTime) : State :=
  {| state_type := sc_type state;
     state_timestamp := timestamp;
     state_message := sc_message state |}.

Section Routes.

(** [schemas.actions.TaskRunUpdate]. *)
Variable TaskRunUpdate : Type.

(** The functions of [models.task_runs] the routes call. *)
Variable models_update_task_run : UUID -> TaskRunUpdate -> Session bool.
Variable models_read_task_run : UUID -> Session (option TaskRun).
Variable models_delete_task_run : UUID -> Session bool.
Variable models_count_task_runs :
  option FlowFilter -> option FlowRunFilter -> option TaskRunFilter ->
  option DeploymentFilter -> Session nat.
Variable models_set_task_run_state :
  UUID -> State -> bool -> option Policy -> option (list (string * string)) ->
  Session OrchestrationResult.

Definition update_task_run (task_run : TaskRunUpdate) (task_run_id : UUID)
    : Session unit :=
  result <- session_context true (models_update_task_run task_run_id task_run) ;;
  if negb result
  then raise (HTTPException HTTP_404_NOT_FOUND "Task run not found")
  else ret tt.

Definition count_task_runs (flows : option FlowFilter)
    (flow_runs : option FlowRunFilter) (task_runs : option TaskRunFilter)
    (deployments : option DeploymentFilter) : Session nat :=
  session_context false (models_count_task_runs flows flow_runs task_runs deployments).

Definition read_task_run (task_run_id : UUID) : Session TaskRun :=
  task_run <- session_context false (models_read_task_run task_run_id) ;;
  match task_run with
  | None => raise (HTTPException HTTP_404_NOT_FOUND "Task not found")
  | Some task_run => ret task_run
  end.

Definition delete_task_run (task_run_id : UUID) : Session unit :=
  result <- session_context true (models_delete_task_run task_run_id) ;;
  if negb result
  then raise (HTTPException HTTP_404_NOT_FOUND "Task not found")
  else ret tt.

(** [now] is read before the session opens, [parsed_at] when the
    proposed state is parsed inside it.  The session is opened with
    [with_for_update=True] as well; that flag only concerns locking.  The
    result pairs the response's status code with its body. *)
Definition set_task_run_state (task_run_id : UUID) (state : StateCreate)
    (force : bool) (task_policy : option Policy)
    (orchestration_parameters : option (list (string * string)))
    (now parsed_at : DateTime) : Session (Z * OrchestrationResult) :=
  orchestration_result <-
    session_context true
      (models_set_task_run_state task_run_id (parse_obj state parsed_at)
         force task_policy orchestration_parameters) ;;
  let status_code :=
    match res_state orchestration_result with
    | Some s => if now <=? state_timestamp s then HTTP_201_CREATED else HTTP_200_OK
    | None => HTTP_200_OK
    end in
  ret (status_code, orchestration_result).

End Routes.

End TaskRunRoutes.

(* ================================================================== *)
(** ** The task-run model layer behind the create route                 *)
(* ================================================================== *)

Module TaskRunModels.

Local Open Scope session_scope.

(** Modelled from the spec: the uniqueness constraint of section 4.6 for
    task runs, over the owning scope and the key.  The docstring of the
    create route names the columns: the same [flow_run_id], [task_key] and
    [dynamic_key]. *)
Definition same_task_run (task_run : TaskRunCreate) (r : TaskRun) : bool :=
  match trc_flow_run_id task_run, tr_flow_run_id r with
  | Some a, Some b => (a =? b)%Z
  | None, None => true
  | _, _ => false
  end
  && String.eqb (tr_task_key r) (trc_task_key task_run)
  && String.eqb (tr_dynamic_key r) (trc_dynamic_key task_run).

(** Modelled from the spec: the row of a new task run; its state is
    attached afterwards, by the engine. *)
Definition new_task_run (task_run : TaskRunCreate) (now : DateTime) (id : UUID) : TaskRun :=
  {| tr_id := id;
     tr_flow_run_id := trc_flow_run_id task_run;
     tr_task_key := trc_task_key task_run;
     tr_dynamic_key := trc_dynamic_key task_run;
     tr_created := now;
     tr_state := None |}.

(** Modelled from the spec: the atomic conditional insert of section 4.6,
    insert-or-noop on the uniqueness constraint. *)
Definition insert_on_conflict_do_nothing (task_run : TaskRunCreate) (now : DateTime)
    : Session unit :=
  fun db =>
    if existsb (same_task_run task_run) (task_run_table db)
    then (Returned tt, db, [])
    else
      (Returned tt,
       with_task_runs (with_flow_runs db (flow_run_table db) (next_id db + 1)%Z)
         (task_run_table db ++ [new_task_run task_run now (next_id db)]),
       []).

(** Modelled from the spec: the read-back of section 4.6. *)
Definition read_back (task_run : TaskRunCreate) : Session (option TaskRun) :=
  fun db => (Returned (find (same_task_run task_run) (task_run_table db)), db, []).

Definition read_task_run (task_run_id : UUID) : Session (option TaskRun) :=
  fun db =>
    (Returned (find (fun r => (tr_id r =? task_run_id)%Z) (task_run_table db)), db, []).

Section Engine.

(** [models.task_runs.set_task_run_state], the engine for task runs. *)
Variable set_task_run_state :
  UUID -> State -> bool -> option Policy -> option (list (string * string)) ->
  Session OrchestrationResult.

(** Modelled from the spec: [models.task_runs.create_task_run] is not among
    the source files.  It follows the create operation of section 4.6, as
    its sibling [create_flow_run] does: conditional insert, read-back, and
    when the read-back row was created at the instant [now] this call
    started with and an initial state was supplied, the engine is invoked
    with [force=true] to attach it.  A row that already existed is returned
    as it is stored. *)
Definition create_task_run (now : DateTime) (task_run : TaskRunCreate)
    (orchestration_parameters : option (list (string * string)))
    : Session TaskRun :=
  insert_on_conflict_do_nothing task_run now ;;;
  model <- read_back task_run ;;
  match model with
  | None => raise AttributeError
  | Some model =>
      match trc_state task_run with
      | Some state =>
          if (tr_created model =? now)%Z
          then
            set_task_run_state (tr_id model) state true None
              orchestration_parameters ;;;
            refreshed <- read_task_run (tr_id model) ;;
            match refreshed with
            | Some model' => ret model'
            | None => ret model
            end
          else ret model
      | None => ret model
      end
  end.

End Engine.

End TaskRunModels.

(* ================================================================== *)
(** ** api/task_runs.py: the scheduled-task subscription                *)
(* ================================================================== *)

Module Subscriptions.

(** What the client does first, once the socket is accepted: it sends its
    subscription (a JSON object that may hold a list under ["keys"]) or the
    connection ends. *)
Inductive Opening :=
| Subscribe (keys : option (list string))
| OpeningDisconnect.

(** What the client does with one task run pushed to it: the connection
    ends while the task run is being sent, or while the acknowledgement is
    awaited, or it answers with a JSON object that may hold a ["type"]; or
    it answers with a message that is no acknowledgement and the connection
    ends while the handler closes the socket. *)
Inductive ClientStep :=
| SendDisconnect
| AckDisconnect
| Reply (type : option string)
| OtherReplyCloseDisconnect.

Inductive WsEvent :=
| WsGet (task_run : TaskRun)
| WsSend (task_run : TaskRun)
| WsRetry (task_key : string) (task_run : TaskRun)
| WsClose.

(** How a run of the handler over a finite script ends: the coroutine
    returned, or it is suspended on the queue or on the client. *)
Inductive Ending := Finished | AwaitingQueue | AwaitingClient.

Definition is_ack (type : option string) : bool :=
  match type with
  | Some t => String.eqb t "ack"
  | None => false
  end.

(** The [while True] loop.  [deliveries] are the task runs
    [subscribed_queue.get()] yields, in order; [client] is what the client
    does with each.  The disconnect exceptions the handler catches are part
    of the script: while sending, while receiving, and while closing the
    socket after a reply that is no acknowledgement (the [close] call is
    inside the [try]).  Putting a task run back is taken to succeed.
    [WsClose] records a [close] call that returned. *)
Fixpoint serve (deliveries : list TaskRun) (client : list ClientStep)
    : list WsEvent * Ending :=
  match deliveries with
  | [] => ([], AwaitingQueue)
  | task_run :: deliveries' =>
      match client with
      | [] => ([WsGet task_run; WsSend task_run], AwaitingClient)
      | SendDisconnect :: _ =>
          ([WsGet task_run; WsRetry (tr_task_key task_run) task_run], Finished)
      | AckDisconnect :: _ =>
          ([WsGet task_run; WsSend task_run;
            WsRetry (tr_task_key task_run) task_run], Finished)
      | Reply type :: client' =>
          if is_ack type
          then
            let '(ev, ending) := serve deliveries' client' in
            (WsGet task_run :: WsSend task_run :: ev, ending)
          else ([WsGet task_run; WsSend task_run; WsClose], Finished)
      | OtherReplyCloseDisconnect :: _ =>
          ([WsGet task_run; WsSend task_run;
            WsRetry (tr_task_key task_run) task_run], Finished)
      end
  end.

(** [accepted] is whether [accept_prefect_socket] handed back a socket. *)
Definition scheduled_task_subscription (accepted : bool) (opening : Opening)
    (deliveries : list TaskRun) (client : list ClientStep)
    : list WsEvent * Ending :=
  if negb accepted then ([], Finished)
  else
    match opening with
    | OpeningDisconnect => ([WsClose], Finished)
    | Subscribe keys =>
        match keys with
        | None | Some [] => ([WsClose], Finished)
        | Some (_ :: _) => serve deliveries client
        end
    end.

Fixpoint taken (ev : list WsEvent) : list TaskRun :=
  match ev with
  | [] => []
  | WsGet t :: ev' => t :: taken ev'
  | _ :: ev' => taken ev'
  end.

Fixpoint sent (ev : list WsEvent) : list TaskRun :=
  match ev with
  | [] => []
  | WsSend t :: ev' => t :: sent ev'
  | _ :: ev' => sent ev'
  end.

Fixpoint retried (ev : list WsEvent) : list (string * TaskRun) :=
  match ev with
  | [] => []
  | WsRetry k t :: ev' => (k, t) :: retried ev'
  | _ :: ev' => retried ev'
  end.

(** The task runs the client acknowledged, read off its script. *)
Fixpoint acknowledged (deliveries : list TaskRun) (client : list ClientStep)
    : list TaskRun :=
  match deliveries, client with
  | t :: deliveries', Reply type :: client' =>
      if is_ack type then t :: acknowledged deliveries' client' else []
  | _, _ => []
  end.

End Subscriptions.

(* ================================================================== *)
(** ** models/flow_runs.py: the dependency map                          *)
(* ================================================================== *)

Module Dependencies.

Local Open Scope session_scope.

(** A task run as [models.task_runs.read_task_runs] loads it, with what
    [read_task_run_dependencies] reads of it.  [Input] is the type of the
    entries of [task_inputs]. *)
Record LoadedTaskRun (Input : Type) := {
  ltr_id : UUID;
  ltr_name : string;
  ltr_task_inputs : list (string * list Input);
  (** the state, with [state_details.untrackable_result] *)
  ltr_state : option (State * bool);
  ltr_expected_start_time : option DateTime;
  ltr_start_time : option DateTime;
  ltr_end_time : option DateTime;
  ltr_total_run_time : option Z;
  ltr_estimated_run_time : option Z
}.

(** One entry of the returned list. *)
Record DependencyNode (Input : Type) := {
  dn_id : UUID;
  dn_upstream_dependencies : list Input;
  dn_state : option (State * bool);
  dn_expected_start_time : option DateTime;
  dn_name : string;
  dn_start_time : option DateTime;
  dn_end_time : option DateTime;
  dn_total_run_time : option Z;
  dn_estimated_run_time : option Z;
  dn_untrackable_result : bool
}.

Section Graph.

Variable Input : Type.

(** [list(set(xs))]: the elements of [xs], each once, in the order the set
    happens to iterate. *)
Variable list_of_set : list Input -> list Input.

(** [models.task_runs.read_task_runs], called with a flow-run filter only. *)
Variable models_read_task_runs : FlowRunFilter -> Session (list (LoadedTaskRun Input)).

Definition node (task_run : LoadedTaskRun Input) : DependencyNode Input :=
  let inputs := list_of_set (concat (map snd (ltr_task_inputs task_run))) in
  let untrackable_result_status :=
    match ltr_state task_run with
    | None => false
    | Some (_, untrackable) => untrackable
    end in
  {| dn_id := ltr_id task_run;
     dn_upstream_dependencies := inputs;
     dn_state := ltr_state task_run;
     dn_expected_start_time := ltr_expected_start_time task_run;
     dn_name := ltr_name task_run;
     dn_start_time := ltr_start_time task_run;
     dn_end_time := ltr_end_time task_run;
     dn_total_run_time := ltr_total_run_time task_run;
     dn_estimated_run_time := ltr_estimated_run_time task_run;
     dn_untrackable_result := untrackable_result_status |}.

Definition read_task_run_dependencies (flow_run_id : UUID)
    : Session (list (DependencyNode Input)) :=
  flow_run <- FlowRuns.read_flow_run flow_run_id false ;;
  match flow_run with
  | None => raise (ObjectNotFoundError flow_run_id)
  | Some _ =>
      task_runs <- models_read_task_runs (fun r => (fr_id r =? flow_run_id)%Z) ;;
      ret (map node task_runs)
  end.

End Graph.

End Dependencies.

(* ================================================================== *)
(** ** Conditions on databases and rules                                *)
(* ================================================================== *)

Module Conditions.

(** Every stored flow run has an id the id generator has already passed. *)
Definition ids_below_next (db : Database) : Prop :=
  forall r, In r (flow_run_table db) -> (fr_id r < next_id db)%Z.

(** A rule whose exit neither raises nor asks to suppress the pending
    exception. *)
Definition quiet (r : Rule) : Prop :=
  forall t x c, snd (aexit r t x c) = Returned false.

(** A sort whose order is total and transitive. *)
Definition total_order (le : FlowRunSort) : Prop :=
  (forall a b, le a b = true \/ le b a = true) /\
  (forall a b c, le a b = true -> le b c = true -> le a c = true).

(** [l'] is [l] with some elements left out, the rest in their order. *)
Inductive subseq (A : Type) : list A -> list A -> Prop :=
| subseq_nil : subseq [] []
| subseq_skip x l' l : subseq l' l -> subseq l' (x :: l)
| subseq_keep x l' l : subseq l' l -> subseq (x :: l') (x :: l).

(** A sort that leaves no two different rows of [rows] tied: ORDER BY then
    fixes the order of the rows, whatever the database does with ties. *)
Definition tie_free (le : FlowRunSort) (rows : list FlowRun) : Prop :=
  forall a b, In a rows -> In b rows -> le a b = true -> le b a = true -> a = b.

(** [l] is in the order of [le]: every row may come before all later ones. *)
Definition in_order (le : FlowRunSort) (l : list FlowRun) : Prop :=
  Sorted.StronglySorted (fun a b => le a b = true) l.

(** *** The rule hooks of one attempt, read directly *)

(** What an awaited call raised, if it raised. *)
Definition raised {A} (o : Outcome A) : option Exc :=
  match o with
  | Raised e => Some e
  | Returned _ => None
  end.

(** The context after the entries of [rules], taken in order, each entry
    working on the context the entry before it left. *)
Definition after_entries (t : Transition) (rules : list Rule)
    (c : OrchestrationContext) : OrchestrationContext :=
  fold_left (fun c r => fst (aenter r t c)) rules c.

(** Whether every entry of [rules] returns, when the rules are entered in
    order starting from [c]. *)
Fixpoint entries_return (t : Transition) (rules : list Rule)
    (c : OrchestrationContext) : bool :=
  match rules with
  | [] => true
  | r :: rest =>
      match aenter r t c with
      | (c', Returned _) => entries_return t rest c'
      | (_, Raised _) => false
      end
  end.

(** One exit of the teardown: the rule's exit is given the context and the
    pending exception the exits before it left; it clears the exception by
    returning true and replaces it by raising. *)
Definition exit_step (t : Transition) (state : OrchestrationContext * option Exc)
    (r : Rule) : OrchestrationContext * option Exc :=
  let '(c', result) := aexit r t (snd state) (fst state) in
  (c', match result with
       | Returned suppress => if suppress then None else snd state
       | Raised e => Some e
       end).

(** The context and the pending exception after the exits of [rules], taken
    in the order of the list. *)
Definition after_exits (t : Transition) (rules : list Rule)
    (c : OrchestrationContext) (pending : option Exc)
    : OrchestrationContext * option Exc :=
  fold_left (exit_step t) rules (c, pending).

End Conditions.

Export Conditions.

(* ================================================================== *)
(** ** More sample data                                                 *)
(* ================================================================== *)

Module Samples.

Local Open Scope string_scope.
Local Open Scope Z_scope.

(** A flow run submitted with neither idempotency key nor state. *)
Definition adhoc : FlowRunCreate :=
  {| frc_flow_id := 7;
     frc_deployment_id := None;
     frc_work_queue_id := None;
     frc_name := "adhoc";
     frc_tags := [];
     frc_idempotency_key := None;
     frc_state := None |}.

(** The nightly run, submitted without a state. *)
Definition nightly_stateless : FlowRunCreate :=
  {| frc_flow_id := 7;
     frc_deployment_id := None;
     frc_work_queue_id := None;
     frc_name := "nightly";
     frc_tags := [];
     frc_idempotency_key := Some "job-42";
     frc_state := None |}.

Definition task (id : UUID) (key : string) : TaskRun :=
  {| tr_id := id;
     tr_flow_run_id := Some 1;
     tr_task_key := key;
     tr_dynamic_key := "0";
     tr_created := 950;
     tr_state := None |}.

Definition loaded (id : UUID) (inputs : list (string * list Z))
    : Dependencies.LoadedTaskRun Z :=
  {| Dependencies.ltr_id := id;
     Dependencies.ltr_name := "load";
     Dependencies.ltr_task_inputs := inputs;
     Dependencies.ltr_state := None;
     Dependencies.ltr_expected_start_time := None;
     Dependencies.ltr_start_time := None;
     Dependencies.ltr_end_time := None;
     Dependencies.ltr_total_run_time := None;
     Dependencies.ltr_estimated_run_time := None |}.

(** A rule whose entry raises. *)
Definition raising_rule (name : string) : Rule :=
  {| rule_name := name;
     aenter := fun _ c => (c, Raised (RuleError 2));
     aexit := fun _ _ c => (c, Returned false) |}.

Definition raising_policy : Policy :=
  {| compile_transition_rules :=
       fun _ _ => [Examples.pass_rule "first"; raising_rule "second"] |}.

(** An installation whose minimal policy has a rule of its own and whose
    global policy has two. *)
Definition layered_engine : Engine :=
  {| MinimalFlowPolicy :=
       {| compile_transition_rules := fun _ _ => [Examples.pass_rule "minimal"] |};
     GlobalFlowPolicy :=
       {| compile_transition_rules := fun _ _ =>
            [Examples.pass_rule "bookkeeping"; Examples.pass_rule "invariants"] |};
     FlowOrchestrationContext := Examples.new_context;
     validate_proposed_state := Examples.commit_proposed |}.

(** A kind-specific policy of two rules. *)
Definition audit_policy : Policy :=
  {| compile_transition_rules :=
       fun _ _ => [Examples.pass_rule "audit"; Examples.pass_rule "limits"] |}.

(** A task-run engine that accepts every proposal and writes it on the run. *)
Definition accept_task_state (task_run_id : UUID) (state : State) (_ : bool)
    (_ : option Policy) (_ : option (list (string * string)))
    : Session OrchestrationResult :=
  fun db =>
    (Returned {| res_state := Some state; res_status := ACCEPT; res_details := "accepted" |},
     with_task_runs db
       (map (fun r =>
               if tr_id r =? task_run_id
               then {| tr_id := tr_id r;
                       tr_flow_run_id := tr_flow_run_id r;
                       tr_task_key := tr_task_key r;
                       tr_dynamic_key := tr_dynamic_key r;
                       tr_created := tr_created r;
                       tr_state := Some state |}
               else r) (task_run_table db)),
     []).


(** Three flow runs of one flow, stored out of id order. *)
Definition three_runs_db : Database :=
  with_flow_runs Examples.empty_db
    [FlowRuns.new_flow_run adhoc 910 2;
     FlowRuns.new_flow_run adhoc 920 3;
     FlowRuns.new_flow_run adhoc 900 1] 4.

(** One way a set may list its elements: first occurrences, in order. *)
Fixpoint first_occurrences (seen l : list Z) : list Z :=
  match l with
  | [] => []
  | x :: t =>
      if existsb (Z.eqb x) seen then first_occurrences seen t
      else x :: first_occurrences (x :: seen) t
  end.

End Samples.

(* ================================================================== *)
(** * Properties                                                        *)
(* ================================================================== *)

(** ** Lists of rows *)

Module RowFacts.

Lemma filter_nothing (A : Type) (p : A -> bool) (l : list A) :
  (forall x, In x l -> p x = false) -> filter p l = [].
Proof.
  induction l as [| a l IH]; simpl; intros H; [reflexivity |].
  rewrite (H a (or_introl eq_refl)). apply IH. intros x Hx. apply H. now right.
Qed.

Lemma filter_everything (A : Type) (p : A -> bool) (l : list A) :
  (forall x, In x l -> p x = true) -> filter p l = l.
Proof.
  induction l as [| a l IH]; simpl; intros H; [reflexivity |].
  rewrite (H a (or_introl eq_refl)). f_equal. apply IH. intros x Hx. apply H. now right.
Qed.

Lemma map_untouched (A : Type) (p : A -> bool) (f : A -> A) (l : list A) :
  (forall x, In x l -> p x = false) ->
  map (fun x => if p x then f x else x) l = l.
Proof.
  induction l as [| a l IH]; simpl; intros H; [reflexivity |].
  rewrite (H a (or_introl eq_refl)). f_equal. apply IH. intros x Hx. apply H. now right.
Qed.

Lemma filter_some (A : Type) (p : A -> bool) (l : list A) (x : A) :
  In x l -> p x = true -> (0 <? length (filter p l))%nat = true.
Proof.
  intros Hin Hp.
  assert (Hf : In x (filter p l)) by (apply filter_In; now split).
  destruct (filter p l); [destruct Hf | reflexivity].
Qed.

Lemma with_flow_runs_same (db : Database) :
  with_flow_runs db (flow_run_table db) (next_id db) = db.
Proof. now destruct db. Qed.

Lemma with_task_runs_same (db : Database) :
  with_task_runs db (task_run_table db) = db.
Proof. now destruct db. Qed.

Lemma cascade_nothing (rows : list TaskRun) : cascade [] rows = rows.
Proof. unfold cascade. now apply filter_everything. Qed.

(** ORDER BY rearranges the rows it is given, whatever the order. *)
Lemma insert_row_perm (le : FlowRunSort) (x : FlowRun) (l : list FlowRun) :
  Permutation (x :: l) (insert_row le x l).
Proof.
  induction l as [| y l IH]; simpl; [apply Permutation_refl |].
  destruct (le x y); [apply Permutation_refl |].
  eapply perm_trans; [apply perm_swap |]. now apply perm_skip.
Qed.

Lemma order_by_perm (le : FlowRunSort) (l : list FlowRun) :
  Permutation l (order_by le l).
Proof.
  unfold order_by. induction l as [| x l IH]; simpl; [apply perm_nil |].
  eapply perm_trans; [apply perm_skip, IH | apply insert_row_perm].
Qed.

Lemma NoDup_ids_filter (p : FlowRun -> bool) (l : list FlowRun) :
  NoDup (map fr_id l) -> NoDup (map fr_id (filter p l)).
Proof.
  induction l as [| a l IH]; simpl; intros H; [constructor |].
  inversion H as [| ? ? Hnotin Hnd]; subst.
  destruct (p a); simpl; [| now apply IH].
  constructor; [| now apply IH].
  intros Hin. apply Hnotin.
  apply in_map_iff in Hin. destruct Hin as [r [Hr Hin]].
  apply filter_In in Hin. apply in_map_iff. exists r. now split.
Qed.

Lemma seen_false (i : UUID) (seen : list UUID) :
  ~ In i seen -> existsb (Z.eqb i) seen = false.
Proof.
  intros H. destruct (existsb (Z.eqb i) seen) eqn:E; [| reflexivity].
  apply existsb_exists in E. destruct E as [j [Hj Heq]].
  apply Z.eqb_eq in Heq. subst. contradiction.
Qed.

(** On rows with pairwise distinct ids, uniquifying changes nothing. *)
Lemma unique_distinct (l : list FlowRun) :
  forall seen,
    NoDup (map fr_id l) ->
    (forall r, In r l -> ~ In (fr_id r) seen) ->
    unique seen l = l.
Proof.
  induction l as [| a l IH]; simpl; intros seen Hnd Hseen; [reflexivity |].
  inversion Hnd as [| ? ? Hnotin Hnd']; subst.
  rewrite seen_false by (apply Hseen; now left).
  f_equal. apply IH; [assumption |].
  intros r Hr [Heq | Hin].
  - apply Hnotin. rewrite Heq. now apply in_map.
  - apply (Hseen r); [now right | assumption].
Qed.

End RowFacts.

(** ** Update, delete, list and count *)

Module CrudFacts.

Import RowFacts.

(** C8. Update and delete on an id that matches no run both return false,
    raise nothing and leave the database as it was; on an id that matches
    a run both return true. *)
Theorem update_delete_report_missing :
  forall (db : Database) (id : UUID) (u : FlowRunUpdate),
    ((forall r, In r (flow_run_table db) -> fr_id r <> id) ->
       FlowRuns.update_flow_run id u db = (Returned false, db, []) /\
       FlowRuns.delete_flow_run id db = (Returned false, db, []))
    /\
    ((exists r, In r (flow_run_table db) /\ fr_id r = id) ->
       outcome (FlowRuns.update_flow_run id u db) = Returned true /\
       outcome (FlowRuns.delete_flow_run id db) = Returned true).
Proof.
  intros db id u. split.
  - intros Hmiss.
    assert (Hp : forall r, In r (flow_run_table db) -> (fr_id r =? id)%Z = false)
      by (intros r Hr; apply Z.eqb_neq; now apply Hmiss).
    unfold FlowRuns.update_flow_run, FlowRuns.delete_flow_run, sql_update, sql_delete.
    rewrite (filter_nothing _ _ Hp), (map_untouched _ _ _ Hp). simpl.
    rewrite filter_everything by (intros r Hr; now rewrite (Hp r Hr)).
    rewrite cascade_nothing, with_flow_runs_same, with_task_runs_same.
    now split.
  - intros [r [Hin Hid]].
    assert (Hp : (fr_id r =? id)%Z = true) by now apply Z.eqb_eq.
    unfold FlowRuns.update_flow_run, FlowRuns.delete_flow_run, sql_update, sql_delete, outcome.
    simpl. rewrite (filter_some _ _ _ Hin Hp). now split.
Qed.

(** A concrete run of C8: id 5 is absent from the one-row table, id 1 is in it. *)
Lemma update_delete_report_missing_witness :
  (FlowRuns.update_flow_run 5%Z Examples.rename Examples.one_run_db
     = (Returned false, Examples.one_run_db, []) /\
   FlowRuns.delete_flow_run 5%Z Examples.one_run_db
     = (Returned false, Examples.one_run_db, []))
  /\
  (outcome (FlowRuns.update_flow_run 1%Z Examples.rename Examples.one_run_db) = Returned true /\
   outcome (FlowRuns.delete_flow_run 1%Z Examples.one_run_db) = Returned true).
Proof.
  split.
  - apply (proj1 (update_delete_report_missing Examples.one_run_db 5%Z Examples.rename)).
    intros r [Hr | []]. rewrite <- Hr. vm_compute. discriminate.
  - apply (proj2 (update_delete_report_missing Examples.one_run_db 1%Z Examples.rename)).
    exists (Examples.stored_run 1%Z 900%Z). split; [left |]; reflexivity.
Defined.

(** The filter step adds conjuncts and touches nothing else of a query. *)
Lemma apply_filters_select q ff frf trf df wpf wqf :
  q_select (FlowRuns._apply_flow_run_filters q ff frf trf df wpf wqf) = q_select q.
Proof.
  unfold FlowRuns._apply_flow_run_filters, FlowRuns.where_if.
  destruct ff, frf, trf, df, wpf, wqf; reflexivity.
Qed.

Lemma apply_filters_order q ff frf trf df wpf wqf :
  q_order_by (FlowRuns._apply_flow_run_filters q ff frf trf df wpf wqf) = q_order_by q.
Proof.
  unfold FlowRuns._apply_flow_run_filters, FlowRuns.where_if.
  destruct ff, frf, trf, df, wpf, wqf; reflexivity.
Qed.

Lemma apply_filters_window q ff frf trf df wpf wqf :
  q_offset (FlowRuns._apply_flow_run_filters q ff frf trf df wpf wqf) = q_offset q /\
  q_limit (FlowRuns._apply_flow_run_filters q ff frf trf df wpf wqf) = q_limit q.
Proof.
  unfold FlowRuns._apply_flow_run_filters, FlowRuns.where_if.
  destruct ff, frf, trf, df, wpf, wqf; split; reflexivity.
Qed.

(** Two queries with the same conjuncts get the same conjuncts added. *)
Lemma apply_filters_where q1 q2 ff frf trf df wpf wqf :
  q_where q1 = q_where q2 ->
  q_where (FlowRuns._apply_flow_run_filters q1 ff frf trf df wpf wqf)
  = q_where (FlowRuns._apply_flow_run_filters q2 ff frf trf df wpf wqf).
Proof.
  intros H.
  unfold FlowRuns._apply_flow_run_filters, FlowRuns.where_if.
  destruct ff, frf, trf, df, wpf, wqf; simpl; rewrite H; reflexivity.
Qed.

Lemma matching_where q1 q2 db :
  q_where q1 = q_where q2 -> matching q1 db = matching q2 db.
Proof. unfold matching. now intros ->. Qed.

(** C10. On a flow-run table whose ids are pairwise distinct (the primary
    key), [count_flow_runs] returns the number of runs [read_flow_runs]
    returns for the same filters with neither offset nor limit. *)
Theorem count_is_length_of_read :
  forall (ff : option FlowFilter) (frf : option FlowRunFilter)
         (trf : option TaskRunFilter) (df : option DeploymentFilter)
         (wpf : option WorkPoolFilter) (wqf : option WorkQueueFilter)
         (sort : FlowRunSort) (db : Database),
    NoDup (map fr_id (flow_run_table db)) ->
    exists rows,
      FlowRuns.read_flow_runs ff frf trf df wpf wqf None None sort db
        = (Returned rows, db, []) /\
      FlowRuns.count_flow_runs ff frf trf df wpf wqf db
        = (Returned (length rows), db, []).
Proof.
  intros ff frf trf df wpf wqf sort db Hnd.
  set (qr := {| q_select := SelectFlowRun; q_where := []; q_order_by := Some sort;
                q_offset := None; q_limit := None |}).
  set (qc := {| q_select := SelectCountStar; q_where := []; q_order_by := None;
                q_offset := None; q_limit := None |}).
  set (qr' := FlowRuns._apply_flow_run_filters qr ff frf trf df wpf wqf).
  set (qc' := FlowRuns._apply_flow_run_filters qc ff frf trf df wpf wqf).
  assert (Hm : matching qc' db = matching qr' db)
    by (apply matching_where, apply_filters_where; reflexivity).
  assert (Hids : NoDup (map fr_id (order_by sort (matching qr' db)))).
  { eapply Permutation_NoDup.
    - apply Permutation_map, order_by_perm.
    - unfold matching. now apply NoDup_ids_filter. }
  assert (Hsr : q_select qr' = SelectFlowRun) by apply apply_filters_select.
  assert (Hsc : q_select qc' = SelectCountStar) by apply apply_filters_select.
  assert (Hord : q_order_by qr' = Some sort) by apply apply_filters_order.
  destruct (apply_filters_window qr ff frf trf df wpf wqf) as [Ho Hl].
  fold qr' in Ho, Hl. simpl in Ho, Hl.
  exists (order_by sort (matching qr' db)). split.
  - unfold FlowRuns.read_flow_runs, bind, execute. fold qr qr'.
    clearbody qr'. rewrite Hsr. unfold window, ordered.
    rewrite Ho, Hl, Hord. simpl.
    rewrite unique_distinct; [reflexivity | assumption | intros r _ []].
  - unfold FlowRuns.count_flow_runs, bind, execute. fold qc qc'.
    rewrite <- (Permutation_length (order_by_perm sort (matching qr' db))), <- Hm.
    clearbody qc'. rewrite Hsc. reflexivity.
Qed.

(** A concrete run of C10 on the one-row table, filtering on the run name. *)
Lemma count_is_length_of_read_witness :
  exists rows,
    FlowRuns.read_flow_runs None (Some (fun r => String.eqb (fr_name r) "nightly"))
      None None None None None None ID_DESC Examples.one_run_db
      = (Returned rows, Examples.one_run_db, []) /\
    FlowRuns.count_flow_runs None (Some (fun r => String.eqb (fr_name r) "nightly"))
      None None None None Examples.one_run_db
      = (Returned (length rows), Examples.one_run_db, []).
Proof.
  apply (count_is_length_of_read None (Some (fun r => String.eqb (fr_name r) "nightly"))
           None None None None ID_DESC Examples.one_run_db).
  vm_compute. constructor; [intros [] | constructor].
Defined.

End CrudFacts.

(** ** The rule scopes and the engine *)

Module EngineFacts.

Import FlowRuns.

(** Flatten appends, maps and reversals of traces before comparing them. *)
Ltac trace_norm :=
  rewrite ?rev_app_distr, ?map_app, <- ?app_assoc; simpl; try reflexivity.

(** Entering a list of rules: the rules entered are a prefix of the list,
    pushed on the stack in reverse, and the loop stops at the first rule
    whose entry raises. *)
Lemma enter_rules_shape (t : Transition) (rules : list Rule) :
  forall context stack c s x ev,
    enter_rules t rules context stack = (c, s, x, ev) ->
    exists entered rest,
      rules = entered ++ rest /\
      s = rev entered ++ stack /\
      ((x = None /\ rest = [] /\ ev = map EvEnter entered) \/
       (exists r e rest',
          x = Some e /\ rest = r :: rest' /\
          ev = map EvEnter entered ++ [EvEnterRaised r e])).
Proof.
  induction rules as [| r rules IH]; simpl; intros context stack c s x ev H.
  - inversion H; subst. exists [], []. repeat split. now left.
  - destruct (aenter r t context) as [c' [u | e]] eqn:E.
    + destruct (enter_rules t rules c' (r :: stack)) as [[[c2 s2] x2] ev2] eqn:E2.
      inversion H; subst; clear H.
      apply IH in E2. destruct E2 as (entered & rest & Hr & Hs & Hev).
      exists (r :: entered), rest. simpl. rewrite <- app_assoc. simpl.
      split; [now rewrite Hr |]. split; [assumption |].
      destruct Hev as [(Hx & Hrest & Hev) | (r0 & e & rest' & Hx & Hrest & Hev)].
      * left. now subst.
      * right. exists r0, e, rest'. now subst.
    + inversion H; subst; clear H.
      exists [], (r :: rules). repeat split. right. now exists r, e, rules.
Qed.

(** Leaving the block runs the exit of every rule on the stack, top first,
    whatever the callbacks return or raise. *)
Lemma unwind_events (t : Transition) (stack : list Rule) :
  forall x context c x' ev,
    unwind t stack x context = (c, x', ev) -> ev = map EvExit stack.
Proof.
  induction stack as [| cb stack IH]; simpl; intros x context c x' ev H.
  - now inversion H.
  - destruct (aexit cb t x context) as [context' r].
    destruct (unwind t stack _ context') as [[c2 x2] ev2] eqn:E.
    inversion H; subst. f_equal. eapply IH, E.
Qed.

Lemma orchestrate_shape (eng : Engine) (t : Transition) (orch glob : list Rule)
    (context : OrchestrationContext) c x ev :
  orchestrate eng t orch glob context = (c, x, ev) ->
  exists entered rest mid,
    orch ++ glob = entered ++ rest /\
    ev = map EvEnter entered ++ mid ++ map EvExit (rev entered) /\
    ((rest = [] /\ mid = [EvValidate]) \/
     (exists r e rest', rest = r :: rest' /\ mid = [EvEnterRaised r e])).
Proof.
  unfold orchestrate, with_body. intros H.
  destruct (enter_rules t orch context []) as [[[c1 s1] x1] ev1] eqn:E1.
  apply enter_rules_shape in E1.
  destruct E1 as (en1 & rest1 & Hr1 & Hs1 & Hev1). rewrite app_nil_r in Hs1.
  destruct Hev1 as [(Hx1 & Hrest1 & Hev1) | (r & e & rest' & Hx1 & Hrest1 & Hev1)].
  - subst x1 rest1. rewrite app_nil_r in Hr1. subst orch.
    destruct (enter_rules t glob c1 s1) as [[[c2 s2] x2] ev2] eqn:E2.
    apply enter_rules_shape in E2.
    destruct E2 as (en2 & rest2 & Hr2 & Hs2 & Hev2).
    assert (Hstack : s2 = rev (en1 ++ en2)) by (rewrite rev_app_distr; now subst).
    destruct Hev2 as [(Hx2 & Hrest2 & Hev2) | (r & e & rest' & Hx2 & Hrest2 & Hev2)].
    + subst x2 rest2. rewrite app_nil_r in Hr2. subst glob.
      exists (en1 ++ en2), [], [EvValidate].
      split; [now rewrite app_nil_r |]. split; [| now left].
      destruct (validate_proposed_state eng c2) as [c3 [u | e]];
        destruct (unwind t s2 _ c3) as [[c4 x4] ev4] eqn:E4;
        apply unwind_events in E4; inversion H; subst; trace_norm.
    + subst x2.
      destruct (unwind t s2 (Some e) c2) as [[c4 x4] ev4] eqn:E4.
      apply unwind_events in E4. inversion H; subst.
      exists (en1 ++ en2), (r :: rest'), [EvEnterRaised r e].
      split; [now rewrite app_assoc |]. split; [| right; now exists r, e, rest'].
      trace_norm.
  - subst x1.
    destruct (unwind t s1 (Some e) c1) as [[c4 x4] ev4] eqn:E4.
    apply unwind_events in E4. inversion H; subst.
    exists en1, ((r :: rest') ++ glob), [EvEnterRaised r e].
    split; [now rewrite app_assoc |]. split; [| right; now exists r, e, (rest' ++ glob)].
    trace_norm.
Qed.

Lemma notifications_app (l1 l2 : list Event) :
  notifications (l1 ++ l2) = (notifications l1 + notifications l2)%nat.
Proof. unfold notifications. now rewrite filter_app, length_app. Qed.

Lemma notifications_enter (l : list Rule) : notifications (map EvEnter l) = 0%nat.
Proof. unfold notifications. induction l; simpl; auto. Qed.

Lemma notifications_exit (l : list Rule) : notifications (map EvExit l) = 0%nat.
Proof. unfold notifications. induction l; simpl; auto. Qed.

(** The rule scopes never call the notification policies themselves. *)
Lemma orchestrate_silent (eng : Engine) (t : Transition) (orch glob : list Rule)
    (context : OrchestrationContext) c x ev :
  orchestrate eng t orch glob context = (c, x, ev) -> notifications ev = 0%nat.
Proof.
  intros H. apply orchestrate_shape in H.
  destruct H as (entered & rest & mid & _ & Hev & Hmid). subst ev.
  rewrite !notifications_app, notifications_enter, notifications_exit.
  destruct Hmid as [[_ ->] | (r & e & rest' & _ & ->)]; reflexivity.
Qed.

(** What one attempt on a stored run comes to, in terms of its rule scopes. *)
Lemma set_flow_run_state_found (eng : Engine) (id : UUID) (state : option State)
    (force : bool) (policy : option Policy) (params : option (list (string * string)))
    (db : Database) (run : FlowRun) c x ev :
  outcome (read_flow_run id true db) = Returned (Some run) ->
  orchestrate eng (intended_transition run state)
    (orchestration_rules eng force policy (intended_transition run state))
    (global_rules eng (intended_transition run state))
    (build_context eng run state params) = (c, x, ev) ->
  set_flow_run_state eng id state force policy params db
  = (match x with
     | Some e => Raised e
     | None =>
         match orchestration_error c with
         | Some e => Raised e
         | None => Returned (result_of c)
         end
     end,
     final_db (flush_run id (ctx_run c) db),
     EvSelectForUpdate id :: ev ++
       match x, orchestration_error c, response_status c with
       | None, None, (ACCEPT | REJECT) => [EvQueueNotifications (fr_id run)]
       | _, _, _ => []
       end).
Proof.
  unfold outcome, read_flow_run. simpl. intros Hfind Horch.
  inversion Hfind as [Hf]; clear Hfind.
  unfold set_flow_run_state, bind, read_flow_run, apply_rules. rewrite Hf.
  cbv zeta. rewrite Horch. unfold final_db, flush_run. simpl.
  destruct x as [e |]; [now rewrite app_nil_r |].
  destruct (orchestration_error c) as [e |]; simpl; [now rewrite app_nil_r |].
  unfold queue_flow_run_notifications, emit, ret.
  destruct (response_status c); simpl; rewrite ?app_nil_r; reflexivity.
Qed.

Lemma set_flow_run_state_missing (eng : Engine) (id : UUID) (state : option State)
    (force : bool) (policy : option Policy) (params : option (list (string * string)))
    (db : Database) :
  outcome (read_flow_run id true db) = Returned None ->
  set_flow_run_state eng id state force policy params db
  = (Raised (ObjectNotFoundError id), db, [EvSelectForUpdate id]).
Proof.
  unfold outcome, read_flow_run. simpl. intros Hfind.
  inversion Hfind as [Hf]; clear Hfind.
  unfold set_flow_run_state, bind, read_flow_run. now rewrite Hf.
Qed.

(** Case analysis on what an attempt returned or raised. *)
Ltac settle :=
  repeat match goal with
  | H : exists _, _ |- _ => destruct H
  | H : _ /\ _ |- _ => destruct H
  | H : _ \/ _ |- _ => destruct H
  | H : Returned _ = Returned _ |- _ => inversion H; clear H; subst
  | H : Returned _ = Raised _ |- _ => discriminate H
  | H : Raised _ = Returned _ |- _ => discriminate H
  | H : res_status _ = _ |- _ => simpl in H; discriminate H
  | H : 0%nat = 1%nat |- _ => discriminate H
  end.

Lemma read_flow_run_outcome (id : UUID) (b : bool) (db : Database) :
  outcome (read_flow_run id b db)
  = Returned (find (fun r => (fr_id r =? id)%Z) (flow_run_table db)).
Proof. reflexivity. Qed.

Lemma notifications_after_select (id : UUID) (l : list Event) :
  notifications (EvSelectForUpdate id :: l) = notifications l.
Proof. reflexivity. Qed.

(** C3. In every attempt the notification policies are called at most once,
    and they are called exactly when the attempt returns a result whose
    status is ACCEPT or REJECT: never for a returned WAIT or ABORT, and
    never when the attempt raises (an orchestration error is raised before
    the call). *)
Theorem notifications_iff_accept_or_reject :
  forall (eng : Engine) (id : UUID) (state : option State) (force : bool)
         (policy : option Policy) (params : option (list (string * string)))
         (db : Database),
    let r := set_flow_run_state eng id state force policy params db in
    (notifications (events r) <= 1)%nat /\
    (notifications (events r) = 1%nat <->
       exists res, outcome r = Returned res /\
                   (res_status res = ACCEPT \/ res_status res = REJECT)) /\
    (forall res, outcome r = Returned res ->
                 res_status res = WAIT \/ res_status res = ABORT ->
                 notifications (events r) = 0%nat) /\
    (forall e, outcome r = Raised e -> notifications (events r) = 0%nat).
Proof.
  intros eng id state force policy params db r. subst r.
  pose proof (read_flow_run_outcome id true db) as Hread.
  destruct (find (fun r => (fr_id r =? id)%Z) (flow_run_table db)) as [run |].
  - destruct (orchestrate eng (intended_transition run state)
                (orchestration_rules eng force policy (intended_transition run state))
                (global_rules eng (intended_transition run state))
                (build_context eng run state params)) as [[c x] ev] eqn:E.
    rewrite (set_flow_run_state_found eng state force policy params Hread E).
    pose proof (orchestrate_silent _ _ _ _ _ E) as Hsilent.
    unfold events, outcome. simpl fst. simpl snd.
    rewrite notifications_after_select, notifications_app, Hsilent. simpl plus.
    unfold result_of.
    destruct x as [e |]; [| destruct (orchestration_error c) as [e |];
      [| destruct (response_status c)]];
      cbn [notifications filter is_notification length];
      repeat split; intros; settle;
      try lia; try reflexivity;
      try (eexists; split; [reflexivity | simpl; auto]).
  - rewrite (set_flow_run_state_missing eng state force policy params Hread).
    unfold events, outcome. simpl.
    split; [unfold notifications; simpl; lia |].
    split; [split; [intros H; discriminate H | intros [res [H _]]; discriminate H] |].
    split; [intros res H; discriminate H | reflexivity].
Qed.

(** *** The scopes of an attempt, read off the rule hooks *)

Lemma after_entries_cons (t : Transition) (r : Rule) (l : list Rule)
    (c : OrchestrationContext) :
  after_entries t (r :: l) c = after_entries t l (fst (aenter r t c)).
Proof. reflexivity. Qed.

Lemma after_entries_app (t : Transition) (l1 l2 : list Rule) (c : OrchestrationContext) :
  after_entries t (l1 ++ l2) c = after_entries t l2 (after_entries t l1 c).
Proof. apply fold_left_app. Qed.

Lemma entries_return_app (t : Transition) (l1 l2 : list Rule) :
  forall c,
    entries_return t (l1 ++ l2) c
    = entries_return t l1 c && entries_return t l2 (after_entries t l1 c).
Proof.
  induction l1 as [| r l1 IH]; intros c; [reflexivity |].
  rewrite after_entries_cons. simpl.
  destruct (aenter r t c) as [c' [u | e]]; simpl; [apply IH | reflexivity].
Qed.

Lemma after_exits_cons (t : Transition) (r : Rule) (l : list Rule)
    (c : OrchestrationContext) (x : option Exc) :
  after_exits t (r :: l) c x
  = after_exits t l (fst (exit_step t (c, x) r)) (snd (exit_step t (c, x) r)).
Proof.
  unfold after_exits. simpl. now destruct (exit_step t (c, x) r).
Qed.

(** The entry loop stops at the first rule whose entry raises, on the
    context the entries before it left. *)
Lemma enter_rules_spec (t : Transition) (rules : list Rule) :
  forall context stack c s x ev,
    enter_rules t rules context stack = (c, s, x, ev) ->
    exists entered rest,
      rules = entered ++ rest /\
      s = rev entered ++ stack /\
      entries_return t entered context = true /\
      ((x = None /\ rest = [] /\ ev = map EvEnter entered /\
        c = after_entries t entered context) \/
       (exists r e rest',
          x = Some e /\ rest = r :: rest' /\
          ev = map EvEnter entered ++ [EvEnterRaised r e] /\
          aenter r t (after_entries t entered context) = (c, Raised e))).
Proof.
  induction rules as [| r rules IH]; simpl; intros context stack c s x ev H.
  - inversion H; subst. exists [], []. repeat split. now left.
  - destruct (aenter r t context) as [c' [u | e]] eqn:E.
    + destruct (enter_rules t rules c' (r :: stack)) as [[[c2 s2] x2] ev2] eqn:E2.
      inversion H; subst; clear H.
      apply IH in E2. destruct E2 as (entered & rest & Hr & Hs & Hen & Hev).
      exists (r :: entered), rest.
      split; [simpl; now rewrite Hr |].
      split; [simpl; rewrite <- app_assoc; exact Hs |].
      split; [simpl; rewrite E; exact Hen |].
      rewrite after_entries_cons, E. simpl fst.
      destruct Hev as [(Hx & Hrest & Hev & Hc)
                      | (r0 & e & rest' & Hx & Hrest & Hev & Hc)].
      * left. subst. repeat split.
      * right. exists r0, e, rest'. subst. repeat split. exact Hc.
    + inversion H; subst; clear H.
      exists [], (r :: rules). repeat split. right. now exists r, e, rules.
Qed.

(** Leaving the block runs the exits of the stack, top first, each on what
    the exit before it left. *)
Lemma unwind_spec (t : Transition) (stack : list Rule) :
  forall x context c x' ev,
    unwind t stack x context = (c, x', ev) ->
    after_exits t stack context x = (c, x') /\ ev = map EvExit stack.
Proof.
  induction stack as [| cb stack IH]; simpl; intros x context c x' ev H.
  - now inversion H.
  - rewrite after_exits_cons. unfold exit_step. simpl.
    destruct (aexit cb t x context) as [context' r].
    destruct (unwind t stack _ context') as [[c2 x2] ev2] eqn:E.
    inversion H; subst. apply IH in E. destruct E as [E ->]. simpl.
    split; [exact E | reflexivity].
Qed.

(** The whole block: the rules entered, how the body ended, and the exits. *)
Lemma orchestrate_spec (eng : Engine) (t : Transition) (orch glob : list Rule)
    (context : OrchestrationContext) c x ev :
  orchestrate eng t orch glob context = (c, x, ev) ->
  exists entered rest mid inner,
    orch ++ glob = entered ++ rest /\
    entries_return t entered context = true /\
    ((rest = [] /\ mid = [EvValidate] /\
      inner = (fst (validate_proposed_state eng (after_entries t entered context)),
               raised (snd (validate_proposed_state eng
                              (after_entries t entered context))))) \/
     (exists rule e rest',
        rest = rule :: rest' /\ mid = [EvEnterRaised rule e] /\
        snd (aenter rule t (after_entries t entered context)) = Raised e /\
        inner = (fst (aenter rule t (after_entries t entered context)), Some e))) /\
    ev = map EvEnter entered ++ mid ++ map EvExit (rev entered) /\
    after_exits t (rev entered) (fst inner) (snd inner) = (c, x).
Proof.
  unfold orchestrate, with_body. intros H.
  destruct (enter_rules t orch context []) as [[[c1 s1] x1] ev1] eqn:E1.
  apply enter_rules_spec in E1.
  destruct E1 as (en1 & rest1 & Hr1 & Hs1 & Hen1 & Hev1). rewrite app_nil_r in Hs1.
  destruct Hev1 as [(Hx1 & Hrest1 & Hev1 & Hc1)
                   | (r & e & rest' & Hx1 & Hrest1 & Hev1 & Hc1)].
  - subst x1 rest1. rewrite app_nil_r in Hr1. subst orch.
    destruct (enter_rules t glob c1 s1) as [[[c2 s2] x2] ev2] eqn:E2.
    apply enter_rules_spec in E2.
    destruct E2 as (en2 & rest2 & Hr2 & Hs2 & Hen2 & Hev2).
    assert (Hstack : s2 = rev (en1 ++ en2)) by (rewrite rev_app_distr; now subst).
    assert (Hen : entries_return t (en1 ++ en2) context = true)
      by (rewrite entries_return_app, Hen1, <- Hc1, Hen2; reflexivity).
    destruct Hev2 as [(Hx2 & Hrest2 & Hev2 & Hc2)
                     | (r & e & rest' & Hx2 & Hrest2 & Hev2 & Hc2)].
    + subst x2 rest2. rewrite app_nil_r in Hr2. subst glob.
      assert (Hin : c2 = after_entries t (en1 ++ en2) context)
        by (rewrite after_entries_app, <- Hc1; exact Hc2).
      exists (en1 ++ en2), [], [EvValidate]. eexists.
      split; [now rewrite app_nil_r |]. split; [exact Hen |].
      split; [left; repeat split; reflexivity |].
      rewrite <- Hin. simpl fst. simpl snd.
      destruct (validate_proposed_state eng c2) as [c3 [u | e]]; simpl;
        destruct (unwind t s2 _ c3) as [[c4 x4] ev4] eqn:E4;
        apply unwind_spec in E4; destruct E4 as [E4 ->];
        inversion H; subst;
        (split; [trace_norm | rewrite ?rev_app_distr; exact E4]).
    + subst x2.
      assert (Hin : aenter r t (after_entries t (en1 ++ en2) context) = (c2, Raised e))
        by (rewrite after_entries_app, <- Hc1; exact Hc2).
      destruct (unwind t s2 (Some e) c2) as [[c4 x4] ev4] eqn:E4.
      apply unwind_spec in E4. destruct E4 as [E4 ->]. inversion H; subst.
      exists (en1 ++ en2), (r :: rest'), [EvEnterRaised r e], (c2, Some e).
      split; [now rewrite app_assoc |]. split; [exact Hen |].
      split; [right; exists r, e, rest'; rewrite Hin; repeat split; reflexivity |].
      simpl. split; [trace_norm | rewrite ?rev_app_distr; exact E4].
  - subst x1.
    destruct (unwind t s1 (Some e) c1) as [[c4 x4] ev4] eqn:E4.
    apply unwind_spec in E4. destruct E4 as [E4 ->]. inversion H; subst.
    exists en1, ((r :: rest') ++ glob), [EvEnterRaised r e], (c1, Some e).
    split; [now rewrite app_assoc |]. split; [exact Hen1 |].
    split; [right; exists r, e, (rest' ++ glob); rewrite Hc1; repeat split; reflexivity |].
    simpl. split; [trace_norm | exact E4].
Qed.

(** When no entry of the chain raises, the whole chain is entered. *)
Lemma whole_chain_entered (t : Transition) (entered rest : list Rule)
    (context : OrchestrationContext) rule e rest' :
  entries_return t (entered ++ rest) context = true ->
  rest = rule :: rest' ->
  snd (aenter rule t (after_entries t entered context)) = Raised e ->
  False.
Proof.
  intros Hall -> Hraise. rewrite entries_return_app in Hall.
  apply andb_true_iff in Hall. destruct Hall as [_ Hall]. simpl in Hall.
  destruct (aenter rule t (after_entries t entered context)) as [c' [u | e']];
    simpl in Hraise; [discriminate Hraise | discriminate Hall].
Qed.

(** One attempt on a stored run, in terms of the hooks of its rules. *)
Lemma attempt_spec (eng : Engine) (id : UUID) (state : option State)
    (force : bool) (policy : option Policy) (params : option (list (string * string)))
    (db : Database) (run : FlowRun) :
  outcome (read_flow_run id true db) = Returned (Some run) ->
  exists entered rest mid inner,
    orchestration_rules eng force policy (intended_transition run state)
      ++ global_rules eng (intended_transition run state) = entered ++ rest /\
    entries_return (intended_transition run state) entered
      (build_context eng run state params) = true /\
    ((rest = [] /\ mid = [EvValidate] /\
      inner = (fst (validate_proposed_state eng
                      (after_entries (intended_transition run state) entered
                         (build_context eng run state params))),
               raised (snd (validate_proposed_state eng
                              (after_entries (intended_transition run state) entered
                                 (build_context eng run state params)))))) \/
     (exists rule e rest',
        rest = rule :: rest' /\ mid = [EvEnterRaised rule e] /\
        snd (aenter rule (intended_transition run state)
               (after_entries (intended_transition run state) entered
                  (build_context eng run state params))) = Raised e /\
        inner = (fst (aenter rule (intended_transition run state)
                        (after_entries (intended_transition run state) entered
                           (build_context eng run state params))), Some e))) /\
    set_flow_run_state eng id state force policy params db
    = (match snd (after_exits (intended_transition run state) (rev entered)
                    (fst inner) (snd inner)) with
       | Some e => Raised e
       | None =>
           match orchestration_error
                   (fst (after_exits (intended_transition run state) (rev entered)
                           (fst inner) (snd inner))) with
           | Some e => Raised e
           | None =>
               Returned (result_of
                           (fst (after_exits (intended_transition run state)
                                   (rev entered) (fst inner) (snd inner))))
           end
       end,
       final_db (flush_run id
                   (ctx_run (fst (after_exits (intended_transition run state)
                                    (rev entered) (fst inner) (snd inner)))) db),
       EvSelectForUpdate id ::
         map EvEnter entered ++ mid ++ map EvExit (rev entered) ++
         match snd (after_exits (intended_transition run state) (rev entered)
                      (fst inner) (snd inner)),
               orchestration_error
                 (fst (after_exits (intended_transition run state) (rev entered)
                         (fst inner) (snd inner))),
               response_status
                 (fst (after_exits (intended_transition run state) (rev entered)
                         (fst inner) (snd inner))) with
         | None, None, (ACCEPT | REJECT) => [EvQueueNotifications (fr_id run)]
         | _, _, _ => []
         end).
Proof.
  intros Hread.
  destruct (orchestrate eng (intended_transition run state)
              (orchestration_rules eng force policy (intended_transition run state))
              (global_rules eng (intended_transition run state))
              (build_context eng run state params)) as [[c x] ev] eqn:E.
  rewrite (set_flow_run_state_found eng state force policy params Hread E).
  apply orchestrate_spec in E.
  destruct E as (entered & rest & mid & inner & Hchain & Hen & Hbody & Hev & Hfin).
  exists entered, rest, mid, inner.
  split; [exact Hchain |]. split; [exact Hen |]. split; [exact Hbody |].
  rewrite Hfin, Hev. simpl. rewrite <- !app_assoc. reflexivity.
Qed.

(** C5. In every attempt on a stored run the rules are entered in the order
    of the chain, the kind-specific rules before the global ones, each entry
    working on the context the entries before it left.  The entries stop
    only at a rule whose entry raises on that context, so when no entry
    raises the whole chain is entered.  [validate_proposed_state] is then
    called on the context the last entry left, before any scope is left.
    On every path out of the block (validation returned or raised, or an
    entry raised) the exits of the entered rules run in reverse entry
    order, each on the context and the pending exception the exit before it
    left; the run they leave is the row the session holds, and an exception
    still pending after them is raised. *)
Theorem rules_nest_and_unwind :
  forall (eng : Engine) (id : UUID) (state : option State) (force : bool)
         (policy : option Policy) (params : option (list (string * string)))
         (db : Database) (run : FlowRun),
    outcome (read_flow_run id true db) = Returned (Some run) ->
    let t := intended_transition run state in
    let kind := orchestration_rules eng force policy t in
    let global := global_rules eng t in
    let context := build_context eng run state params in
    let r := set_flow_run_state eng id state force policy params db in
    exists entered rest mid inner tail,
      kind ++ global = entered ++ rest /\
      entries_return t entered context = true /\
      ((rest = [] /\ mid = [EvValidate] /\
        inner = (fst (validate_proposed_state eng (after_entries t entered context)),
                 raised (snd (validate_proposed_state eng
                                (after_entries t entered context))))) \/
       (exists rule e rest',
          rest = rule :: rest' /\ mid = [EvEnterRaised rule e] /\
          snd (aenter rule t (after_entries t entered context)) = Raised e /\
          inner = (fst (aenter rule t (after_entries t entered context)), Some e))) /\
      events r
      = EvSelectForUpdate id ::
          map EvEnter entered ++ mid ++ map EvExit (rev entered) ++ tail /\
      (tail = [] \/ tail = [EvQueueNotifications (fr_id run)]) /\
      final_db r
      = final_db (flush_run id
                    (ctx_run (fst (after_exits t (rev entered) (fst inner) (snd inner))))
                    db) /\
      (forall e, snd (after_exits t (rev entered) (fst inner) (snd inner)) = Some e ->
                 outcome r = Raised e) /\
      (entries_return t (kind ++ global) context = true ->
       entered = kind ++ global /\ mid = [EvValidate]).
Proof.
  intros eng id state force policy params db run Hread t kind global context r.
  destruct (attempt_spec eng state force policy params Hread)
    as (entered & rest & mid & inner & Hchain & Hen & Hbody & Hrun).
  fold t context in Hchain, Hen, Hbody, Hrun. fold r in Hrun.
  exists entered, rest, mid, inner.
  eexists. split; [exact Hchain |]. split; [exact Hen |]. split; [exact Hbody |].
  rewrite Hrun. unfold events, final_db, outcome. simpl fst. simpl snd.
  split; [reflexivity |]. split; [| split; [reflexivity |]; split].
  - destruct (snd (after_exits t (rev entered) (fst inner) (snd inner))); [now left |].
    destruct (orchestration_error _); [now left |].
    destruct (response_status _); auto.
  - now intros e ->.
  - intros Hall. fold kind global in Hchain. rewrite Hchain in Hall.
    destruct Hbody as [(-> & -> & _) | (rule & e & rest' & Hrest & _ & Hraise & _)].
    + now rewrite app_nil_r in Hchain.
    + destruct (whole_chain_entered _ _ _ Hall Hrest Hraise).
Qed.

(** A concrete run of C5: two kind-specific rules around two global ones. *)
Lemma rules_nest_and_unwind_witness :
  let eng := Samples.layered_engine in
  let state := Some (Pending 1000%Z) in
  let policy := Some Samples.audit_policy in
  let run := Examples.stored_run 1%Z 900%Z in
  let t := intended_transition run state in
  let kind := orchestration_rules eng false policy t in
  let global := global_rules eng t in
  let context := build_context eng run state None in
  let r := set_flow_run_state eng 1%Z state false policy None Examples.one_run_db in
  exists entered rest mid inner tail,
    kind ++ global = entered ++ rest /\
    entries_return t entered context = true /\
    ((rest = [] /\ mid = [EvValidate] /\
      inner = (fst (validate_proposed_state eng (after_entries t entered context)),
               raised (snd (validate_proposed_state eng
                              (after_entries t entered context))))) \/
     (exists rule e rest',
        rest = rule :: rest' /\ mid = [EvEnterRaised rule e] /\
        snd (aenter rule t (after_entries t entered context)) = Raised e /\
        inner = (fst (aenter rule t (after_entries t entered context)), Some e))) /\
    events r
    = EvSelectForUpdate 1%Z ::
        map EvEnter entered ++ mid ++ map EvExit (rev entered) ++ tail /\
    (tail = [] \/ tail = [EvQueueNotifications (fr_id run)]) /\
    final_db r
    = final_db (flush_run 1%Z
                  (ctx_run (fst (after_exits t (rev entered) (fst inner) (snd inner))))
                  Examples.one_run_db) /\
    (forall e, snd (after_exits t (rev entered) (fst inner) (snd inner)) = Some e ->
               outcome r = Raised e) /\
    (entries_return t (kind ++ global) context = true ->
     entered = kind ++ global /\ mid = [EvValidate]).
Proof.
  intros eng state policy run t kind global context r.
  apply (rules_nest_and_unwind eng state false policy None
           (id := 1%Z) (db := Examples.one_run_db) (run := run)).
  reflexivity.
Defined.

(** C4. In every attempt on a stored run the chain that is entered is a
    kind-specific tier followed by the rules the global policy compiles for
    the attempt's exact pair of initial and proposed state types.  The
    kind-specific tier is what the minimal policy compiles for that pair
    when [force] is true or no policy was supplied, and what the supplied
    policy compiles for it otherwise.  The chain is entered rule by rule,
    each entry on the context the entries before it left, up to a rule
    whose entry raises; so when no entry raises, every rule of the tier and
    then every global rule is entered, validation follows, and the global
    rules are left before the tier's, whatever [force] is. *)
Theorem minimal_policy_when_forced_or_unsupplied :
  forall (eng : Engine) (id : UUID) (state : option State) (force : bool)
         (policy : option Policy) (params : option (list (string * string)))
         (db : Database) (run : FlowRun),
    outcome (read_flow_run id true db) = Returned (Some run) ->
    let initial_type := option_map state_type (fr_state run) in
    let proposed_type := option_map state_type state in
    let t := (initial_type, proposed_type) in
    let minimal :=
      compile_transition_rules (MinimalFlowPolicy eng) initial_type proposed_type in
    let global :=
      compile_transition_rules (GlobalFlowPolicy eng) initial_type proposed_type in
    let kind :=
      match policy with
      | Some p =>
          if force then minimal
          else compile_transition_rules p initial_type proposed_type
      | None => minimal
      end in
    let context := build_context eng run state params in
    let r := set_flow_run_state eng id state force policy params db in
    exists entered rest mid tail,
      kind ++ global = entered ++ rest /\
      entries_return t entered context = true /\
      ((rest = [] /\ mid = [EvValidate]) \/
       (exists rule e rest',
          rest = rule :: rest' /\ mid = [EvEnterRaised rule e] /\
          snd (aenter rule t (after_entries t entered context)) = Raised e)) /\
      events r
      = EvSelectForUpdate id ::
          map EvEnter entered ++ mid ++ map EvExit (rev entered) ++ tail /\
      (tail = [] \/ tail = [EvQueueNotifications (fr_id run)]) /\
      (entries_return t (kind ++ global) context = true ->
       events r
       = EvSelectForUpdate id ::
           map EvEnter kind ++ map EvEnter global ++ [EvValidate] ++
           map EvExit (rev global) ++ map EvExit (rev kind) ++ tail).
Proof.
  intros eng id state force policy params db run Hread it pt t minimal global kind
         context r.
  destruct (attempt_spec eng state force policy params Hread)
    as (entered & rest & mid & inner & Hchain & Hen & Hbody & Hrun).
  assert (Hkind : orchestration_rules eng force policy (intended_transition run state)
                  = kind)
    by (unfold orchestration_rules, effective_policy, kind;
        destruct policy, force; reflexivity).
  rewrite Hkind in Hchain.
  change (intended_transition run state) with t in Hchain, Hen, Hbody, Hrun.
  change (global_rules eng t) with global in Hchain.
  fold context in Hen, Hbody, Hrun. fold r in Hrun.
  assert (Hmid : (rest = [] /\ mid = [EvValidate]) \/
                 (exists rule e rest',
                    rest = rule :: rest' /\ mid = [EvEnterRaised rule e] /\
                    snd (aenter rule t (after_entries t entered context)) = Raised e)).
  { destruct Hbody as [(? & ? & _) | (rule & e & rest' & ? & ? & ? & _)];
      [now left | right; now exists rule, e, rest']. }
  exists entered, rest, mid.
  eexists. split; [exact Hchain |]. split; [exact Hen |]. split; [exact Hmid |].
  rewrite Hrun. unfold events. simpl snd.
  split; [reflexivity |]. split.
  - destruct (snd (after_exits t (rev entered) (fst inner) (snd inner))); [now left |].
    destruct (orchestration_error _); [now left |].
    destruct (response_status _); auto.
  - intros Hall. rewrite Hchain in Hall.
    destruct Hmid as [(-> & ->) | (rule & e & rest' & Hrest & _ & Hraise)].
    + rewrite app_nil_r in Hchain. rewrite <- Hchain.
      rewrite rev_app_distr, !map_app, <- !app_assoc. reflexivity.
    + destruct (whole_chain_entered _ _ _ Hall Hrest Hraise).
Qed.

(** A concrete run of C4: a forced transition with a policy supplied, on an
    installation whose minimal policy has a rule of its own. *)
Lemma minimal_policy_when_forced_or_unsupplied_witness :
  let eng := Samples.layered_engine in
  let state := Some (Pending 1000%Z) in
  let policy := Some Examples.strict_policy in
  let run := Examples.stored_run 1%Z 900%Z in
  let t := (@None StateType, Some PENDING) in
  let minimal := compile_transition_rules (MinimalFlowPolicy eng) None (Some PENDING) in
  let global := compile_transition_rules (GlobalFlowPolicy eng) None (Some PENDING) in
  let context := build_context eng run state None in
  let r := set_flow_run_state eng 1%Z state true policy None Examples.one_run_db in
  exists entered rest mid tail,
    minimal ++ global = entered ++ rest /\
    entries_return t entered context = true /\
    ((rest = [] /\ mid = [EvValidate]) \/
     (exists rule e rest',
        rest = rule :: rest' /\ mid = [EvEnterRaised rule e] /\
        snd (aenter rule t (after_entries t entered context)) = Raised e)) /\
    events r
    = EvSelectForUpdate 1%Z ::
        map EvEnter entered ++ mid ++ map EvExit (rev entered) ++ tail /\
    (tail = [] \/ tail = [EvQueueNotifications (fr_id run)]) /\
    (entries_return t (minimal ++ global) context = true ->
     events r
     = EvSelectForUpdate 1%Z ::
         map EvEnter minimal ++ map EvEnter global ++ [EvValidate] ++
         map EvExit (rev global) ++ map EvExit (rev minimal) ++ tail).
Proof.
  intros eng state policy run t minimal global context r.
  apply (minimal_policy_when_forced_or_unsupplied eng state true policy None
           (id := 1%Z) (db := Examples.one_run_db) (run := run)).
  reflexivity.
Defined.

(** C6, as the code has it.  In every attempt on a stored run,
    [set_flow_run_state] returns exactly when no exception is pending
    after the exits of the entered rules and no orchestration error is set
    on the context they leave; what it returns is the structured result
    built from that context (validated state, response status, details),
    whatever the status.  It raises exactly in the two other cases: the
    exception still pending after the exits (one that an entry, the
    validation or an exit raised and no exit cleared), and otherwise the
    orchestration error a rule set.  Whatever it raises, every entered
    scope has been left before, and nothing else happens after. *)
Theorem result_or_raise_after_unwinding :
  forall (eng : Engine) (id : UUID) (state : option State) (force : bool)
         (policy : option Policy) (params : option (list (string * string)))
         (db : Database) (run : FlowRun),
    outcome (read_flow_run id true db) = Returned (Some run) ->
    let t := intended_transition run state in
    let chain := orchestration_rules eng force policy t ++ global_rules eng t in
    let context := build_context eng run state params in
    let r := set_flow_run_state eng id state force policy params db in
    exists entered rest mid inner,
      chain = entered ++ rest /\
      entries_return t entered context = true /\
      ((rest = [] /\ mid = [EvValidate] /\
        inner = (fst (validate_proposed_state eng (after_entries t entered context)),
                 raised (snd (validate_proposed_state eng
                                (after_entries t entered context))))) \/
       (exists rule e rest',
          rest = rule :: rest' /\ mid = [EvEnterRaised rule e] /\
          snd (aenter rule t (after_entries t entered context)) = Raised e /\
          inner = (fst (aenter rule t (after_entries t entered context)), Some e))) /\
      let final := fst (after_exits t (rev entered) (fst inner) (snd inner)) in
      let pending := snd (after_exits t (rev entered) (fst inner) (snd inner)) in
      (forall res,
         outcome r = Returned res <->
         pending = None /\ orchestration_error final = None /\
         res = {| res_state := validated_state final;
                  res_status := response_status final;
                  res_details := response_details final |}) /\
      (forall e,
         outcome r = Raised e <->
         pending = Some e \/ (pending = None /\ orchestration_error final = Some e)) /\
      (forall e,
         outcome r = Raised e ->
         events r
         = EvSelectForUpdate id ::
             map EvEnter entered ++ mid ++ map EvExit (rev entered)).
Proof.
  intros eng id state force policy params db run Hread t chain context r.
  destruct (attempt_spec eng state force policy params Hread)
    as (entered & rest & mid & inner & Hchain & Hen & Hbody & Hrun).
  fold t context in Hchain, Hen, Hbody, Hrun. fold r in Hrun.
  exists entered, rest, mid, inner.
  split; [exact Hchain |]. split; [exact Hen |]. split; [exact Hbody |].
  intros final pending. rewrite Hrun. unfold outcome, events. simpl fst. simpl snd.
  fold final pending. unfold result_of.
  destruct pending as [x |]; [| destruct (orchestration_error final) as [x |]].
  - split; [| split].
    + intros res. split; [intros H; discriminate H | intros [H _]; discriminate H].
    + intros e. split.
      * intros H. left. inversion H. reflexivity.
      * intros [H | [H _]]; [inversion H; reflexivity | discriminate H].
    + intros e _. now rewrite app_nil_r.
  - split; [| split].
    + intros res. split; [intros H; discriminate H | intros (_ & H & _); discriminate H].
    + intros e. split.
      * intros H. right. split; [reflexivity |]. inversion H. reflexivity.
      * intros [H | [_ H]]; [discriminate H | inversion H; reflexivity].
    + intros e _. now rewrite app_nil_r.
  - split; [| split].
    + intros res. split.
      * intros H. inversion H. repeat split.
      * intros (_ & _ & ->). reflexivity.
    + intros e. split; [intros H; discriminate H |].
      intros [H | [_ H]]; discriminate H.
    + intros e H. discriminate H.
Qed.

(** A concrete run of the amended C6, on the raising side: a rule of the
    supplied policy sets an orchestration error. *)
Lemma result_or_raise_after_unwinding_witness :
  let eng := Examples.engine in
  let state := Some (Pending 1000%Z) in
  let policy := Some Examples.strict_policy in
  let run := Examples.stored_run 1%Z 900%Z in
  let t := intended_transition run state in
  let chain := orchestration_rules eng false policy t ++ global_rules eng t in
  let context := build_context eng run state None in
  let r := set_flow_run_state eng 1%Z state false policy None Examples.one_run_db in
  exists entered rest mid inner,
    chain = entered ++ rest /\
    entries_return t entered context = true /\
    ((rest = [] /\ mid = [EvValidate] /\
      inner = (fst (validate_proposed_state eng (after_entries t entered context)),
               raised (snd (validate_proposed_state eng
                              (after_entries t entered context))))) \/
     (exists rule e rest',
        rest = rule :: rest' /\ mid = [EvEnterRaised rule e] /\
        snd (aenter rule t (after_entries t entered context)) = Raised e /\
        inner = (fst (aenter rule t (after_entries t entered context)), Some e))) /\
    let final := fst (after_exits t (rev entered) (fst inner) (snd inner)) in
    let pending := snd (after_exits t (rev entered) (fst inner) (snd inner)) in
    (forall res,
       outcome r = Returned res <->
       pending = None /\ orchestration_error final = None /\
       res = {| res_state := validated_state final;
                res_status := response_status final;
                res_details := response_details final |}) /\
    (forall e,
       outcome r = Raised e <->
       pending = Some e \/ (pending = None /\ orchestration_error final = Some e)) /\
    (forall e,
       outcome r = Raised e ->
       events r
       = EvSelectForUpdate 1%Z ::
           map EvEnter entered ++ mid ++ map EvExit (rev entered)).
Proof.
  intros eng state policy run t chain context r.
  apply (result_or_raise_after_unwinding eng state false policy None
           (id := 1%Z) (db := Examples.one_run_db) (run := run)).
  reflexivity.
Defined.

(** C6 as stated fails: the entry of the second kind-specific rule raises,
    the attempt raises that exception once the first rule's scope is left,
    and no rule has set an orchestration error on the context. *)
Lemma raise_without_orchestration_error :
  let state := Some (Pending 1000%Z) in
  let policy := Some Samples.raising_policy in
  let run := Examples.stored_run 1%Z 900%Z in
  let t := intended_transition run state in
  let attempt :=
    orchestrate Examples.engine t
      (orchestration_rules Examples.engine false policy t)
      (global_rules Examples.engine t)
      (build_context Examples.engine run state None) in
  set_flow_run_state Examples.engine 1%Z state false policy None Examples.one_run_db
  = (Raised (RuleError 2),
     Examples.one_run_db,
     [EvSelectForUpdate 1%Z;
      EvEnter (Examples.pass_rule "first");
      EvEnterRaised (Samples.raising_rule "second") (RuleError 2);
      EvExit (Examples.pass_rule "first")]) /\
  orchestration_error (fst (fst attempt)) = None.
Proof. split; reflexivity. Qed.

(** Two kind-specific rules around two global ones, in full: the scopes
    nest, validation runs innermost, and the exits mirror the entries. *)
Example layered_attempt :
  events (set_flow_run_state Samples.layered_engine 1%Z (Some (Pending 1000%Z)) false
            (Some Samples.audit_policy) None Examples.one_run_db)
  = [EvSelectForUpdate 1%Z;
     EvEnter (Examples.pass_rule "audit");
     EvEnter (Examples.pass_rule "limits");
     EvEnter (Examples.pass_rule "bookkeeping");
     EvEnter (Examples.pass_rule "invariants");
     EvValidate;
     EvExit (Examples.pass_rule "invariants");
     EvExit (Examples.pass_rule "bookkeeping");
     EvExit (Examples.pass_rule "limits");
     EvExit (Examples.pass_rule "audit");
     EvQueueNotifications 1%Z].
Proof. reflexivity. Qed.

(** The same call, forced: the minimal policy's rule takes the place of the
    supplied policy's, and the global rules are entered all the same. *)
Example layered_forced_attempt :
  events (set_flow_run_state Samples.layered_engine 1%Z (Some (Pending 1000%Z)) true
            (Some Samples.audit_policy) None Examples.one_run_db)
  = [EvSelectForUpdate 1%Z;
     EvEnter (Examples.pass_rule "minimal");
     EvEnter (Examples.pass_rule "bookkeeping");
     EvEnter (Examples.pass_rule "invariants");
     EvValidate;
     EvExit (Examples.pass_rule "invariants");
     EvExit (Examples.pass_rule "bookkeeping");
     EvExit (Examples.pass_rule "minimal");
     EvQueueNotifications 1%Z].
Proof. reflexivity. Qed.

(** The accepted proposal, in full: one global rule around the validation,
    then one call of the notification policies. *)
Example accepted_attempt :
  set_flow_run_state Examples.engine 1%Z (Some (Pending 1000%Z)) false None None
    Examples.one_run_db
  = (Returned {| res_state := Some (Pending 1000%Z);
                 res_status := ACCEPT;
                 res_details := "accepted" |},
     with_flow_runs Examples.one_run_db
       [Examples.with_run_state (Examples.stored_run 1%Z 900%Z) (Some (Pending 1000%Z))]
       2%Z,
     [EvSelectForUpdate 1%Z;
      EvEnter (Examples.pass_rule "bookkeeping");
      EvValidate;
      EvExit (Examples.pass_rule "bookkeeping");
      EvQueueNotifications 1%Z]).
Proof. reflexivity. Qed.

(** A rule that records an orchestration error: the later rule is still
    entered, validation still runs, both scopes are left, and only then is
    the error raised; the notification policies are not called. *)
Example aborted_attempt :
  set_flow_run_state Examples.engine 1%Z (Some (Pending 1000%Z)) false
    (Some Examples.strict_policy) None Examples.one_run_db
  = (Raised (RuleError 1),
     Examples.one_run_db,
     [EvSelectForUpdate 1%Z;
      EvEnter (Examples.failing_rule "veto");
      EvEnter (Examples.pass_rule "bookkeeping");
      EvValidate;
      EvExit (Examples.pass_rule "bookkeeping");
      EvExit (Examples.failing_rule "veto")]).
Proof. reflexivity. Qed.

(** The same call, forced: the supplied policy is set aside. *)
Example forced_attempt :
  outcome (set_flow_run_state Examples.engine 1%Z (Some (Pending 1000%Z)) true
             (Some Examples.strict_policy) None Examples.one_run_db)
  = Returned {| res_state := Some (Pending 1000%Z);
                res_status := ACCEPT;
                res_details := "accepted" |}.
Proof. reflexivity. Qed.

End EngineFacts.

(** ** Creation *)

Module CreateFacts.

Import FlowRuns.

Lemma find_existsb (A : Type) (p : A -> bool) (l : list A) (x : A) :
  find p l = Some x -> existsb p l = true.
Proof.
  intros H. apply find_some in H. destruct H as [Hin Hp].
  apply existsb_exists. now exists x.
Qed.

(** An idempotent hit: when a run with the same flow and idempotency key is
    already stored and its creation time is not the time this call started
    with, the call returns that run, writes nothing and does not apply the
    state. *)
Lemma create_existing_run_skips_state (eng : Engine) (now : DateTime)
    (flow_run : FlowRunCreate) (params : option (list (string * string)))
    (db : Database) (stored : FlowRun) :
  truthy (frc_idempotency_key flow_run) = true ->
  outcome (read_back flow_run db) = Returned (Some stored) ->
  fr_created stored <> now ->
  create_flow_run eng now flow_run params db = (Returned stored, db, []).
Proof.
  unfold outcome, read_back. simpl. intros Hkey Hfind Hnow.
  inversion Hfind as [Hf]; clear Hfind.
  unfold create_flow_run, bind, insert_on_conflict_do_nothing, read_back, conflicts.
  rewrite Hkey. simpl. rewrite (find_existsb _ _ Hf), Hf. simpl.
  apply Z.eqb_neq in Hnow. rewrite Hnow.
  now destruct (frc_state flow_run).
Qed.

(** The other side of the guard, for any engine: when the stored run's
    creation time equals the time this call started with, the call goes
    through [set_flow_run_state] for that run, forced, although the run was
    not created by this call. *)
Lemma create_existing_run_same_instant_applies_state (eng : Engine) (now : DateTime)
    (flow_run : FlowRunCreate) (params : option (list (string * string)))
    (db : Database) (stored : FlowRun) (state : State) :
  truthy (frc_idempotency_key flow_run) = true ->
  outcome (read_back flow_run db) = Returned (Some stored) ->
  fr_created stored = now ->
  frc_state flow_run = Some state ->
  events (create_flow_run eng now flow_run params db)
  = events (set_flow_run_state eng (fr_id stored) (Some state) true None params db).
Proof.
  unfold outcome, read_back. simpl. intros Hkey Hfind Hnow Hstate.
  inversion Hfind as [Hf]; clear Hfind.
  unfold create_flow_run, bind, insert_on_conflict_do_nothing, read_back, conflicts.
  rewrite Hkey. simpl. rewrite (find_existsb _ _ Hf), Hf. simpl.
  rewrite Hstate. apply Z.eqb_eq in Hnow. rewrite Hnow.
  unfold events.
  destruct (set_flow_run_state eng (fr_id stored) (Some state) true None params db)
    as [[[res | e] db1] ev1]; [| reflexivity].
  unfold read_flow_run. simpl.
  destruct (find _ (flow_run_table db1)); simpl; now rewrite app_nil_r.
Qed.

(** C2, at two calls that read the same instant from the clock.  Both
    calls return the run with the same id, but the second finds the stored
    creation time equal to its own starting time and applies the initial
    state again: the state is validated twice. *)
Theorem create_twice_same_instant_applies_state_twice :
  let r := Examples.create_twice Examples.engine 1000%Z 1000%Z Examples.nightly
             Examples.empty_db in
  (exists a b, outcome r = Returned (a, b) /\ fr_id a = fr_id b) /\
  validations (events r) = 2%nat /\
  notifications (events r) = 2%nat.
Proof.
  intros r. split; [| split]; [| reflexivity | reflexivity].
  eexists. eexists. split; reflexivity.
Qed.

(** The same two calls one microsecond apart: the state is applied once. *)
Example create_twice_later_applies_state_once :
  let r := Examples.create_twice Examples.engine 1000%Z 1001%Z Examples.nightly
             Examples.empty_db in
  (exists a b, outcome r = Returned (a, b) /\ fr_id a = fr_id b) /\
  validations (events r) = 1%nat.
Proof.
  intros r. split; [| reflexivity].
  eexists. eexists. split; reflexivity.
Qed.

End CreateFacts.

(** ** The task-run routes *)

Module ApiFacts.

Import TaskRunsApi.

Local Open Scope Z_scope.

Lemma one_second : timedelta_of_seconds 1 = {| days := 0; seconds := 1; microseconds := 0 |}.
Proof. reflexivity. Qed.

(** Comparing a normalised timedelta with one second is comparing its
    length in microseconds with a million. *)
Lemma below_one_second (d : timedelta) :
  normalized d ->
  (timedelta_lt d (timedelta_of_seconds 1) = true <-> total_microseconds d < 1000000).
Proof.
  unfold normalized, timedelta_lt, timedelta_cmp, total_microseconds.
  rewrite one_second. simpl. intros [Hs Hu].
  destruct (Z.compare_spec (days d) 0) as [Hd | Hd | Hd].
  - destruct (Z.compare_spec (seconds d) 1) as [Hs1 | Hs1 | Hs1].
    + destruct (Z.compare_spec (microseconds d) 0); split; intros; try discriminate; lia.
    + split; intros; [lia | reflexivity].
    + split; intros; [discriminate | lia].
  - split; intros; [lia | reflexivity].
  - split; intros; [discriminate | lia].
Qed.

(** C7. A history request whose interval is shorter than one second fails
    with status 422, opens no session, runs no query and leaves the
    database alone; with an interval of one second or more the check
    passes and the request goes on to the history query in a session. *)
Theorem history_interval_checked_first :
  forall (HistoryResponse : Type)
         (run_history :
            string -> DateTime -> DateTime -> timedelta ->
            option FlowFilter -> option FlowRunFilter -> option TaskRunFilter ->
            option DeploymentFilter -> Session (list HistoryResponse))
         (history_start history_end : DateTime) (history_interval : timedelta)
         (flows : option FlowFilter) (flow_runs : option FlowRunFilter)
         (task_runs : option TaskRunFilter) (deployments : option DeploymentFilter)
         (db : Database),
    normalized history_interval ->
    (total_microseconds history_interval < 1000000 ->
       task_run_history run_history history_start history_end history_interval
         flows flow_runs task_runs deployments db
       = (Raised (HTTPException 422 "History interval must not be less than 1 second."),
          db, []))
    /\
    (1000000 <= total_microseconds history_interval ->
       task_run_history run_history history_start history_end history_interval
         flows flow_runs task_runs deployments db
       = session_context false
           (run_history "task_run"%string history_start history_end history_interval
              flows flow_runs task_runs deployments) db).
Proof.
  intros HR run_history hs he interval flows flow_runs task_runs deployments db Hnorm.
  pose proof (below_one_second Hnorm) as Hlt.
  unfold task_run_history.
  destruct (timedelta_lt interval (timedelta_of_seconds 1)); split; intros H.
  - reflexivity.
  - assert (total_microseconds interval < 1000000) by now apply Hlt. lia.
  - apply Hlt in H. discriminate H.
  - reflexivity.
Qed.

(** A concrete run of C7: an interval of 500 ms. *)
Lemma history_interval_checked_first_witness :
  task_run_history Examples.no_history 0 3600000000 Examples.half_second
    None None None None Examples.one_run_db
  = (Raised (HTTPException 422 "History interval must not be less than 1 second."),
     Examples.one_run_db, []).
Proof.
  apply (proj1 (history_interval_checked_first Examples.no_history 0 3600000000
                  None None None None Examples.one_run_db
                  (history_interval := Examples.half_second)
                  (conj (conj (Z.le_refl 0) eq_refl) (conj (Zle_0_pos 500000) eq_refl)))).
  reflexivity.
Defined.






(** The response to the request on a database with no task run: created,
    in a PENDING state. *)
Example create_task_run_response :
  outcome (create_task_run (TaskRunModels.create_task_run Samples.accept_task_state 1000)
             Examples.extract 990 995 None Examples.one_run_db)
  = Returned (201,
              {| tr_id := 2;
                 tr_flow_run_id := Some 1;
                 tr_task_key := "extract";
                 tr_dynamic_key := "0";
                 tr_created := 1000;
                 tr_state := Some (Pending 990) |}).
Proof. reflexivity. Qed.

End ApiFacts.

(** ** More on single rows: read, update, delete *)

Module RowExtras.

Lemma filter_idem (A : Type) (p : A -> bool) (l : list A) :
  filter p (filter p l) = filter p l.
Proof.
  apply RowFacts.filter_everything. intros x Hx. now apply filter_In in Hx.
Qed.

Lemma filter_negb_then (A : Type) (p : A -> bool) (l : list A) :
  filter p (filter (fun x => negb (p x)) l) = [].
Proof.
  apply RowFacts.filter_nothing. intros x Hx. apply filter_In in Hx.
  destruct Hx as [_ Hx]. now destruct (p x).
Qed.

Lemma find_after_filter_negb (A : Type) (p : A -> bool) (l : list A) :
  find p (filter (fun x => negb (p x)) l) = None.
Proof.
  induction l as [| a l IH]; simpl; [reflexivity |].
  destruct (p a) eqn:E; simpl; [assumption | now rewrite E].
Qed.

(** Looking a row up after an update that keeps the lookup key. *)
Lemma find_after_update (A : Type) (p : A -> bool) (f : A -> A) (l : list A) :
  (forall x, p (f x) = p x) ->
  find p (map (fun x => if p x then f x else x) l) = option_map f (find p l).
Proof.
  intros Hkey. induction l as [| a l IH]; simpl; [reflexivity |].
  destruct (p a) eqn:E.
  - now rewrite Hkey, E.
  - now rewrite E.
Qed.

Lemma find_absent (A : Type) (p : A -> bool) (l : list A) :
  (forall x, In x l -> p x = false) -> find p l = None.
Proof.
  induction l as [| a l IH]; simpl; intros H; [reflexivity |].
  rewrite (H a (or_introl eq_refl)). apply IH. intros x Hx. apply H. now right.
Qed.

End RowExtras.

Module CrudExtras.

Import RowFacts RowExtras FlowRuns.

(** X1. A deleted run cannot be read back, and deleting it again reports that
    nothing was found and changes nothing. *)
Theorem deleted_run_is_gone :
  forall (db : Database) (id : UUID),
    outcome (read_flow_run id false (final_db (delete_flow_run id db))) = Returned None /\
    delete_flow_run id (final_db (delete_flow_run id db))
    = (Returned false, final_db (delete_flow_run id db), []).
Proof.
  intros db id. unfold delete_flow_run, sql_delete, final_db, outcome, read_flow_run.
  simpl. split.
  - now rewrite find_after_filter_negb.
  - rewrite filter_negb_then, filter_idem. simpl.
    rewrite cascade_nothing. reflexivity.
Qed.

(** X2. Deleting by id removes the flow runs with that id and no other: the
    remaining flow runs are the stored ones with another id, and the
    tables of flows, deployments, work queues and work pools are left
    alone. *)
Theorem delete_removes_exactly :
  forall (db : Database) (id : UUID),
    let db' := final_db (delete_flow_run id db) in
    (forall r, In r (flow_run_table db') <-> In r (flow_run_table db) /\ fr_id r <> id) /\
    flow_table db' = flow_table db /\
    deployment_table db' = deployment_table db /\
    work_queue_table db' = work_queue_table db /\
    work_pool_table db' = work_pool_table db /\
    next_id db' = next_id db.
Proof.
  intros db id. unfold delete_flow_run, sql_delete, final_db. simpl.
  split; [| repeat split].
  intros r. rewrite filter_In. split.
  - intros [Hin Hp]. split; [assumption |].
    intros Heq. apply Z.eqb_eq in Heq. rewrite Heq in Hp. discriminate Hp.
  - intros [Hin Hne]. split; [assumption |].
    apply Z.eqb_neq in Hne. now rewrite Hne.
Qed.

Lemma apply_update_id (u : FlowRunUpdate) (r : FlowRun) :
  fr_id (apply_update u r) = fr_id r.
Proof. reflexivity. Qed.

(** X3. Reading a run after updating it gives the run with exactly the supplied
    fields replaced: a supplied name or tag list is the one read back, an
    absent one leaves the stored value as it was. *)
Theorem update_then_read :
  forall (db : Database) (id : UUID) (u : FlowRunUpdate) (r : FlowRun),
    outcome (read_flow_run id false db) = Returned (Some r) ->
    outcome (update_flow_run id u db) = Returned true /\
    (exists r',
       outcome (read_flow_run id false (final_db (update_flow_run id u db)))
       = Returned (Some r') /\
       fr_id r' = id /\
       fr_name r' = match upd_name u with Some n => n | None => fr_name r end /\
       fr_tags r' = match upd_tags u with Some l => l | None => fr_tags r end).
Proof.
  intros db id u r. unfold outcome, read_flow_run, update_flow_run, sql_update, final_db.
  simpl. intros H. inversion H as [Hf]; clear H.
  apply find_some in Hf as Hr. destruct Hr as [Hin Hp]. split.
  - now rewrite (filter_some _ _ _ Hin Hp).
  - exists (apply_update u r). split; [| repeat split].
    + rewrite find_after_update by reflexivity. now rewrite Hf.
    + now apply Z.eqb_eq.
Qed.

(** A concrete run: renaming the stored run and reading it back. *)
Lemma update_then_read_witness :
  outcome (update_flow_run 1%Z Examples.rename Examples.one_run_db) = Returned true /\
  (exists r',
     outcome (read_flow_run 1%Z false
                (final_db (update_flow_run 1%Z Examples.rename Examples.one_run_db)))
     = Returned (Some r') /\
     fr_id r' = 1%Z /\
     fr_name r' = "renamed"%string /\
     fr_tags r' = []).
Proof.
  apply (@update_then_read Examples.one_run_db 1%Z Examples.rename
           (Examples.stored_run 1%Z 900%Z)).
  reflexivity.
Defined.

(** X4. An update by id leaves every flow run stored under another id exactly
    as it was, adds and removes no row, and does not touch the task runs
    or the id generator. *)
Theorem update_touches_one_id :
  forall (db : Database) (id : UUID) (u : FlowRunUpdate),
    let db' := final_db (update_flow_run id u db) in
    Forall2 (fun r r' => fr_id r <> id -> r' = r)
            (flow_run_table db) (flow_run_table db') /\
    task_run_table db' = task_run_table db /\
    next_id db' = next_id db.
Proof.
  intros db id u. unfold update_flow_run, sql_update, final_db. simpl.
  split; [| split; reflexivity].
  induction (flow_run_table db) as [| a l IH]; simpl; constructor; [| exact IH].
  intros Hne. apply Z.eqb_neq in Hne. now rewrite Hne.
Qed.

(** X5. Applying the same update a second time changes nothing more. *)
Theorem update_twice :
  forall (db : Database) (id : UUID) (u : FlowRunUpdate),
    final_db (update_flow_run id u (final_db (update_flow_run id u db)))
    = final_db (update_flow_run id u db).
Proof.
  intros db id u. unfold update_flow_run, sql_update, final_db. simpl.
  unfold with_flow_runs. simpl. f_equal.
  rewrite map_map. apply map_ext. intros r.
  destruct (fr_id r =? id)%Z eqn:E.
  - rewrite apply_update_id, E. unfold apply_update. simpl.
    destruct (upd_name u), (upd_tags u); reflexivity.
  - now rewrite E.
Qed.

End CrudExtras.

(** ** More on listing and counting *)

Module ListFacts.

Import RowFacts.

Lemma subseq_refl (A : Type) (l : list A) : subseq l l.
Proof. induction l; constructor; assumption. Qed.

Lemma subseq_nil_l (A : Type) (l : list A) : subseq [] l.
Proof. induction l; constructor; assumption. Qed.

Lemma subseq_trans (A : Type) (l1 l2 l3 : list A) :
  subseq l1 l2 -> subseq l2 l3 -> subseq l1 l3.
Proof.
  intros H12 H23. revert l1 H12.
  induction H23 as [| x l2 l3 H IH | x l2 l3 H IH]; intros l1 H12.
  - assumption.
  - constructor. now apply IH.
  - inversion H12; subst.
    + constructor. now apply IH.
    + apply subseq_keep. now apply IH.
Qed.

Lemma subseq_In (A : Type) (l' l : list A) (x : A) :
  subseq l' l -> In x l' -> In x l.
Proof.
  induction 1 as [| y l' l H IH | y l' l H IH]; simpl; intros Hin.
  - assumption.
  - right. now apply IH.
  - destruct Hin as [-> | Hin]; [now left | right; now apply IH].
Qed.

Lemma subseq_length (A : Type) (l' l : list A) :
  subseq l' l -> length l' <= length l.
Proof. induction 1; simpl; lia. Qed.

Lemma subseq_map (A B : Type) (f : A -> B) (l' l : list A) :
  subseq l' l -> subseq (map f l') (map f l).
Proof. induction 1; simpl; constructor; assumption. Qed.

Lemma subseq_NoDup (A : Type) (l' l : list A) :
  subseq l' l -> NoDup l -> NoDup l'.
Proof.
  induction 1 as [| y l' l H IH | y l' l H IH]; intros Hnd.
  - assumption.
  - inversion Hnd; subst. now apply IH.
  - inversion Hnd as [| ? ? Hnotin Hnd']; subst. constructor; [| now apply IH].
    intros Hin. apply Hnotin. eapply subseq_In; eassumption.
Qed.

Lemma subseq_Forall (A : Type) (P : A -> Prop) (l' l : list A) :
  subseq l' l -> Forall P l -> Forall P l'.
Proof.
  intros Hs Hall. rewrite Forall_forall in *. intros x Hx.
  apply Hall. eapply subseq_In; eassumption.
Qed.

Lemma subseq_sorted (A : Type) (R : A -> A -> Prop) (l' l : list A) :
  subseq l' l -> Sorted.StronglySorted R l -> Sorted.StronglySorted R l'.
Proof.
  induction 1 as [| y l' l H IH | y l' l H IH]; intros Hs.
  - assumption.
  - apply Sorted.StronglySorted_inv in Hs. now apply IH.
  - apply Sorted.StronglySorted_inv in Hs. destruct Hs as [Hs Hall].
    constructor; [now apply IH | eapply subseq_Forall; eassumption].
Qed.

Lemma subseq_firstn (A : Type) (n : nat) (l : list A) : subseq (firstn n l) l.
Proof.
  revert n. induction l as [| a l IH]; intros [| n]; simpl;
    try apply subseq_nil_l.
  apply subseq_keep, IH.
Qed.

Lemma subseq_skipn (A : Type) (n : nat) (l : list A) : subseq (skipn n l) l.
Proof.
  revert n. induction l as [| a l IH]; intros [| n]; simpl;
    try apply subseq_refl.
  apply subseq_skip, IH.
Qed.

Lemma subseq_filter (A : Type) (p : A -> bool) (l : list A) : subseq (filter p l) l.
Proof.
  induction l as [| a l IH]; simpl; [constructor |].
  destruct (p a); constructor; assumption.
Qed.

Lemma subseq_unique (l : list FlowRun) : forall seen, subseq (unique seen l) l.
Proof.
  induction l as [| a l IH]; simpl; intros seen; [constructor |].
  destruct (existsb (Z.eqb (fr_id a)) seen); constructor; apply IH.
Qed.

(** Whatever the rows, uniquifying leaves no id twice and none already seen. *)
Lemma unique_ids (l : list FlowRun) :
  forall seen,
    NoDup (map fr_id (unique seen l)) /\
    (forall r, In r (unique seen l) -> ~ In (fr_id r) seen).
Proof.
  induction l as [| a l IH]; simpl; intros seen.
  - split; [constructor | intros r []].
  - destruct (existsb (Z.eqb (fr_id a)) seen) eqn:E; [apply IH |].
    destruct (IH (fr_id a :: seen)) as [Hnd Hseen]. split.
    + simpl. constructor; [| assumption].
      intros Hin. apply in_map_iff in Hin. destruct Hin as [r [Hid Hr]].
      apply (Hseen r Hr). left. now symmetry.
    + intros r [<- | Hr].
      * intros Hin.
        assert (existsb (Z.eqb (fr_id a)) seen = true)
          by (apply existsb_exists; exists (fr_id a); split; [assumption | apply Z.eqb_refl]).
        congruence.
      * intros Hin. apply (Hseen r Hr). now right.
Qed.

(** Insertion keeps a sorted list sorted when the order is total and
    transitive. *)
Lemma insert_row_sorted (le : FlowRunSort) (x : FlowRun) (l : list FlowRun) :
  total_order le ->
  Sorted.StronglySorted (fun a b => le a b = true) l ->
  Sorted.StronglySorted (fun a b => le a b = true) (insert_row le x l).
Proof.
  intros [Htotal Htrans]. induction 1 as [| y l Hs IH Hall]; simpl.
  - constructor; constructor.
  - destruct (le x y) eqn:E.
    + constructor; [now constructor |].
      constructor; [assumption |].
      rewrite Forall_forall in *. intros z Hz. eapply Htrans; [exact E | now apply Hall].
    + constructor; [assumption |].
      eapply Permutation_Forall; [apply insert_row_perm |].
      constructor; [| assumption].
      destruct (Htotal x y) as [H | H]; [congruence | assumption].
Qed.

Lemma order_by_sorted (le : FlowRunSort) (l : list FlowRun) :
  total_order le -> Sorted.StronglySorted (fun a b => le a b = true) (order_by le l).
Proof.
  intros Hle. unfold order_by. induction l as [| a l IH]; simpl; [constructor |].
  now apply insert_row_sorted.
Qed.

Lemma ID_DESC_total_order : total_order ID_DESC.
Proof.
  unfold total_order, ID_DESC. split.
  - intros a b. destruct (Z.le_ge_cases (fr_id a) (fr_id b)) as [H | H];
      [right | left]; now apply Z.leb_le.
  - intros a b c H1 H2. apply Z.leb_le in H1, H2. apply Z.leb_le. lia.
Qed.

Import FlowRuns.

(** The query [read_flow_runs] starts from, and the one [count_flow_runs]
    starts from. *)
Local Abbreviation listing sort :=
  {| q_select := SelectFlowRun; q_where := []; q_order_by := Some sort;
     q_offset := None; q_limit := None |}.

Local Abbreviation counting :=
  {| q_select := SelectCountStar; q_where := []; q_order_by := None;
     q_offset := None; q_limit := None |}.

(** What [read_flow_runs] returns, as list operations on the matching rows. *)
Lemma read_flow_runs_rows ff frf trf df wpf wqf offset limit sort db :
  read_flow_runs ff frf trf df wpf wqf offset limit sort db
  = (Returned
       (unique []
          (match limit with Some n => firstn n | None => fun l => l end
             (match offset with Some n => skipn n | None => fun l => l end
                (order_by sort
                   (matching
                      (_apply_flow_run_filters (listing sort) ff frf trf df wpf wqf)
                      db))))),
     db, []).
Proof.
  unfold read_flow_runs. cbv zeta.
  set (q := _apply_flow_run_filters (listing sort) ff frf trf df wpf wqf).
  assert (Hsel : q_select q = SelectFlowRun) by apply CrudFacts.apply_filters_select.
  assert (Hord : q_order_by q = Some sort) by apply CrudFacts.apply_filters_order.
  destruct (CrudFacts.apply_filters_window (listing sort) ff frf trf df wpf wqf)
    as [Ho Hl].
  fold q in Ho, Hl. simpl in Ho, Hl. clearbody q.
  destruct offset, limit; unfold bind, execute, window, ordered, matching; simpl;
    rewrite Hsel; simpl; rewrite ?Hord, ?Ho, ?Hl; reflexivity.
Qed.

Lemma count_flow_runs_rows ff frf trf df wpf wqf db :
  count_flow_runs ff frf trf df wpf wqf db
  = (Returned
       (length (matching (_apply_flow_run_filters counting ff frf trf df wpf wqf) db)),
     db, []).
Proof.
  unfold count_flow_runs. cbv zeta.
  set (q := _apply_flow_run_filters counting ff frf trf df wpf wqf).
  assert (Hsel : q_select q = SelectCountStar) by apply CrudFacts.apply_filters_select.
  clearbody q. unfold bind, execute. now rewrite Hsel.
Qed.

Lemma window_subseq (A : Type) (offset limit : option nat) (l : list A) :
  subseq
    (match limit with Some n => firstn n | None => fun l => l end
       (match offset with Some n => skipn n | None => fun l => l end l)) l.
Proof.
  destruct limit as [n |], offset as [o |].
  - eapply subseq_trans; [apply subseq_firstn | apply subseq_skipn].
  - apply subseq_firstn.
  - apply subseq_skipn.
  - apply subseq_refl.
Qed.

(** X6. With a limit, [read_flow_runs] returns at most that many runs. *)
Theorem read_respects_limit :
  forall (ff : option FlowFilter) (frf : option FlowRunFilter)
         (trf : option TaskRunFilter) (df : option DeploymentFilter)
         (wpf : option WorkPoolFilter) (wqf : option WorkQueueFilter)
         (offset : option nat) (n : nat) (sort : FlowRunSort) (db : Database),
    exists rows,
      read_flow_runs ff frf trf df wpf wqf offset (Some n) sort db
        = (Returned rows, db, []) /\
      length rows <= n.
Proof.
  intros. rewrite read_flow_runs_rows. eexists. split; [reflexivity |].
  eapply Nat.le_trans; [apply subseq_length, subseq_unique |].
  apply firstn_le_length.
Qed.

(** X7. Whatever the table holds, no id comes twice in what [read_flow_runs]
    returns. *)
Theorem read_ids_distinct :
  forall (ff : option FlowFilter) (frf : option FlowRunFilter)
         (trf : option TaskRunFilter) (df : option DeploymentFilter)
         (wpf : option WorkPoolFilter) (wqf : option WorkQueueFilter)
         (offset limit : option nat) (sort : FlowRunSort) (db : Database),
    exists rows,
      read_flow_runs ff frf trf df wpf wqf offset limit sort db
        = (Returned rows, db, []) /\
      NoDup (map fr_id rows).
Proof.
  intros. rewrite read_flow_runs_rows. eexists. split; [reflexivity |].
  apply unique_ids.
Qed.

(** X8. When the sort is a total, transitive order, the runs come back in that
    order, with or without offset and limit. *)
Theorem read_is_sorted :
  forall (ff : option FlowFilter) (frf : option FlowRunFilter)
         (trf : option TaskRunFilter) (df : option DeploymentFilter)
         (wpf : option WorkPoolFilter) (wqf : option WorkQueueFilter)
         (offset limit : option nat) (sort : FlowRunSort) (db : Database),
    total_order sort ->
    exists rows,
      read_flow_runs ff frf trf df wpf wqf offset limit sort db
        = (Returned rows, db, []) /\
      Sorted.StronglySorted (fun a b => sort a b = true) rows.
Proof.
  intros ff frf trf df wpf wqf offset limit sort db Hsort.
  rewrite read_flow_runs_rows. eexists. split; [reflexivity |].
  eapply subseq_sorted; [apply subseq_unique |].
  eapply subseq_sorted; [apply window_subseq |].
  now apply order_by_sorted.
Qed.

(** A concrete run: the default sort lists the stored runs by descending id. *)
Lemma read_is_sorted_witness :
  exists rows,
    read_flow_runs None None None None None None None None ID_DESC Examples.one_run_db
      = (Returned rows, Examples.one_run_db, []) /\
    Sorted.StronglySorted (fun a b => ID_DESC a b = true) rows.
Proof.
  apply (read_is_sorted None None None None None None None None
           Examples.one_run_db ID_DESC_total_order).
Defined.

(** The joined EXISTS clause asks for a matching flow and for a matching
    task run. *)
Lemma join_implies_both (ff : FlowFilter) (tf : TaskRunFilter) (db : Database)
    (r : FlowRun) :
  exists_flow_join_task_run ff tf db r = true ->
  exists_flow ff db r = true /\ exists_task_run tf db r = true.
Proof.
  unfold exists_flow_join_task_run, exists_flow, exists_task_run. intros H.
  apply existsb_exists in H. destruct H as [fl [Hfl H]].
  apply existsb_exists in H. destruct H as [t [Ht H]].
  rewrite !andb_true_iff in H. destruct H as [[H1 [H2 H3]] [H4 H5]].
  split; apply existsb_exists.
  - exists fl. split; [assumption |]. now rewrite H2, H3.
  - exists t. split; [assumption |]. now rewrite H1, H5.
Qed.

(** A row that passes the conjuncts of a filtered query passes every filter
    that was supplied. *)
Lemma applied_filters_hold q ff frf trf df wpf wqf db r :
  forallb (fun clause => clause db r)
    (q_where (_apply_flow_run_filters q ff frf trf df wpf wqf)) = true ->
  (forall f, frf = Some f -> f r = true) /\
  (forall f, df = Some f -> exists_deployment f db r = true) /\
  (forall f, wpf = Some f -> exists_work_pool f db r = true) /\
  (forall f, wqf = Some f -> exists_work_queue f db r = true) /\
  (forall f, ff = Some f -> exists_flow f db r = true) /\
  (forall f, trf = Some f -> exists_task_run f db r = true).
Proof.
  unfold _apply_flow_run_filters, where_if.
  destruct ff, frf, trf, df, wpf, wqf; simpl;
    rewrite ?forallb_app; simpl; rewrite ?andb_true_iff; intros H;
    repeat match goal with
           | H : _ /\ _ |- _ => destruct H
           | H : exists_flow_join_task_run _ _ _ _ = true |- _ =>
               apply join_implies_both in H
           end;
    repeat split; intros ? Heq; try discriminate Heq;
    inversion Heq; subst; assumption.
Qed.

(** X9. Every run [read_flow_runs] returns is a stored run that passes each
    filter supplied: the flow-run filter holds of it, and the flow, task
    run, deployment, work pool and work queue filters each have a related
    row that matches.  Reading writes nothing. *)
Theorem read_returns_matching_rows :
  forall (ff : option FlowFilter) (frf : option FlowRunFilter)
         (trf : option TaskRunFilter) (df : option DeploymentFilter)
         (wpf : option WorkPoolFilter) (wqf : option WorkQueueFilter)
         (offset limit : option nat) (sort : FlowRunSort) (db : Database),
    exists rows,
      read_flow_runs ff frf trf df wpf wqf offset limit sort db
        = (Returned rows, db, []) /\
      forall r, In r rows ->
        In r (flow_run_table db) /\
        (forall f, frf = Some f -> f r = true) /\
        (forall f, df = Some f -> exists_deployment f db r = true) /\
        (forall f, wpf = Some f -> exists_work_pool f db r = true) /\
        (forall f, wqf = Some f -> exists_work_queue f db r = true) /\
        (forall f, ff = Some f -> exists_flow f db r = true) /\
        (forall f, trf = Some f -> exists_task_run f db r = true).
Proof.
  intros. rewrite read_flow_runs_rows. eexists. split; [reflexivity |].
  intros r Hr.
  apply (subseq_In r (subseq_unique _ _)) in Hr.
  apply (subseq_In r (window_subseq _ _ _)) in Hr.
  apply (Permutation_in r (Permutation_sym (order_by_perm _ _))) in Hr.
  unfold matching in Hr. apply filter_In in Hr. destruct Hr as [Hin Hall].
  split; [assumption |]. eapply applied_filters_hold, Hall.
Qed.

Lemma matching_unfiltered (sort : FlowRunSort) (db : Database) :
  matching (_apply_flow_run_filters (listing sort) None None None None None None) db
  = flow_run_table db.
Proof. unfold matching. simpl. now apply filter_everything. Qed.

(** X10. With no filter, offset or limit, and distinct ids in the table, every
    stored run is listed exactly once. *)
Theorem read_everything :
  forall (sort : FlowRunSort) (db : Database),
    NoDup (map fr_id (flow_run_table db)) ->
    exists rows,
      read_flow_runs None None None None None None None None sort db
        = (Returned rows, db, []) /\
      Permutation rows (flow_run_table db).
Proof.
  intros sort db Hnd. rewrite read_flow_runs_rows, matching_unfiltered.
  eexists. split; [reflexivity |].
  rewrite unique_distinct.
  - apply Permutation_sym, order_by_perm.
  - eapply Permutation_NoDup; [apply Permutation_map, order_by_perm | assumption].
  - intros r _ [].
Qed.

(** A concrete run on the one-row table. *)
Lemma read_everything_witness :
  exists rows,
    read_flow_runs None None None None None None None None ID_DESC Examples.one_run_db
      = (Returned rows, Examples.one_run_db, []) /\
    Permutation rows (flow_run_table Examples.one_run_db).
Proof.
  apply (@read_everything ID_DESC Examples.one_run_db).
  simpl. constructor; [intros [] | constructor].
Defined.

(** With no two different rows tied, a list of rows has one arrangement in
    the order of the sort. *)
Lemma in_order_unique (le : FlowRunSort) (l1 : list FlowRun) :
  forall l2,
    (forall a b, In a l1 -> In b l1 -> le a b = true -> le b a = true -> a = b) ->
    in_order le l1 -> in_order le l2 -> Permutation l1 l2 -> l1 = l2.
Proof.
  unfold in_order.
  induction l1 as [| a l1 IH]; intros l2 Hanti Hs1 Hs2 Hp.
  - apply Permutation_nil in Hp. now subst.
  - destruct l2 as [| b l2];
      [apply Permutation_sym, Permutation_nil in Hp; discriminate Hp |].
    apply Sorted.StronglySorted_inv in Hs1. destruct Hs1 as [Hs1 Ha].
    apply Sorted.StronglySorted_inv in Hs2. destruct Hs2 as [Hs2 Hb].
    rewrite Forall_forall in Ha, Hb.
    assert (Hab : a = b).
    { assert (Hina : In a (b :: l2)) by (eapply Permutation_in; [exact Hp | now left]).
      assert (Hinb : In b (a :: l1))
        by (eapply Permutation_in; [apply Permutation_sym; exact Hp | now left]).
      destruct Hina as [-> | Hina]; [reflexivity |].
      destruct Hinb as [-> | Hinb]; [reflexivity |].
      apply Hanti; [now left | now right | now apply Ha | now apply Hb]. }
    subst b. f_equal.
    apply IH; [| assumption | assumption | eapply Permutation_cons_inv; exact Hp].
    intros x y Hx Hy. apply Hanti; now right.
Qed.

Lemma same_id_same_row (l : list FlowRun) (a b : FlowRun) :
  NoDup (map fr_id l) -> In a l -> In b l -> fr_id a = fr_id b -> a = b.
Proof.
  induction l as [| x l IH]; simpl; intros Hnd Ha Hb Hid; [destruct Ha |].
  inversion Hnd as [| ? ? Hnotin Hnd']; subst.
  destruct Ha as [-> | Ha], Hb as [-> | Hb].
  - reflexivity.
  - exfalso. apply Hnotin. rewrite Hid. now apply in_map.
  - exfalso. apply Hnotin. rewrite <- Hid. now apply in_map.
  - now apply IH.
Qed.

(** Sorting by id leaves no ties between rows with distinct ids. *)
Lemma ID_DESC_tie_free (rows : list FlowRun) :
  NoDup (map fr_id rows) -> tie_free ID_DESC rows.
Proof.
  unfold tie_free, ID_DESC. intros Hnd a b Ha Hb H1 H2.
  apply Z.leb_le in H1, H2. apply (same_id_same_row rows); auto. lia.
Qed.

(** X11. With distinct ids in the table and a sort that is a total order and
    leaves no two different stored runs tied, a page is a slice of the full
    listing: reading with an offset and a limit gives the runs the
    unwindowed read gives, without the first [offset] and cut after
    [limit].  The full listing is then the only arrangement of its runs in
    the order of the sort, so the slice does not hang on how tied rows
    would be placed. *)
Theorem read_page_is_slice :
  forall (ff : option FlowFilter) (frf : option FlowRunFilter)
         (trf : option TaskRunFilter) (df : option DeploymentFilter)
         (wpf : option WorkPoolFilter) (wqf : option WorkQueueFilter)
         (offset limit : nat) (sort : FlowRunSort) (db : Database),
    NoDup (map fr_id (flow_run_table db)) ->
    total_order sort ->
    tie_free sort (flow_run_table db) ->
    exists rows,
      read_flow_runs ff frf trf df wpf wqf None None sort db
        = (Returned rows, db, []) /\
      read_flow_runs ff frf trf df wpf wqf (Some offset) (Some limit) sort db
        = (Returned (firstn limit (skipn offset rows)), db, []) /\
      (forall listing,
         Permutation listing rows -> in_order sort listing -> listing = rows).
Proof.
  intros ff frf trf df wpf wqf offset limit sort db Hnd Htotal Hfree.
  rewrite !read_flow_runs_rows.
  set (m := matching (_apply_flow_run_filters (listing sort) ff frf trf df wpf wqf) db).
  assert (Hids : NoDup (map fr_id (order_by sort m))).
  { eapply Permutation_NoDup; [apply Permutation_map, order_by_perm |].
    unfold m, matching. now apply NoDup_ids_filter. }
  assert (Hstored : forall r, In r (order_by sort m) -> In r (flow_run_table db)).
  { intros r Hr.
    apply (Permutation_in _ (Permutation_sym (order_by_perm sort m))) in Hr.
    unfold m, matching in Hr. now apply filter_In in Hr. }
  exists (order_by sort m). split; [| split].
  - rewrite unique_distinct; [reflexivity | assumption | intros r _ []].
  - rewrite unique_distinct; [reflexivity | | intros r _ []].
    eapply subseq_NoDup; [| exact Hids].
    apply subseq_map.
    eapply subseq_trans; [apply subseq_firstn | apply subseq_skipn].
  - intros listing Hperm Hord. symmetry.
    apply (in_order_unique (le := sort)).
    + intros a b Ha Hb. apply Hfree; now apply Hstored.
    + now apply order_by_sorted.
    + exact Hord.
    + now apply Permutation_sym.
Qed.

(** A concrete run: the second page of size one of a table of three runs,
    newest id first. *)
Lemma read_page_is_slice_witness :
  exists rows,
    read_flow_runs None None None None None None None None ID_DESC Samples.three_runs_db
      = (Returned rows, Samples.three_runs_db, []) /\
    read_flow_runs None None None None None None (Some 1) (Some 1) ID_DESC
      Samples.three_runs_db
      = (Returned (firstn 1 (skipn 1 rows)), Samples.three_runs_db, []) /\
    (forall listing,
       Permutation listing rows -> in_order ID_DESC listing -> listing = rows).
Proof.
  assert (Hnd : NoDup (map fr_id (flow_run_table Samples.three_runs_db))).
  { simpl. repeat constructor; simpl; intros H;
      repeat (destruct H as [H | H]; [discriminate H |]); exact H. }
  apply (@read_page_is_slice None None None None None None 1 1 ID_DESC
           Samples.three_runs_db Hnd ID_DESC_total_order (@ID_DESC_tie_free _ Hnd)).
Defined.

(** That page, in full: the run with the second highest id. *)
Example second_page_of_three :
  outcome (read_flow_runs None None None None None None (Some 1) (Some 1) ID_DESC
             Samples.three_runs_db)
  = Returned [FlowRuns.new_flow_run Samples.adhoc 910%Z 2%Z].
Proof. reflexivity. Qed.

Lemma filter_length_mono (A : Type) (p q : A -> bool) (l : list A) :
  (forall x, p x = true -> q x = true) ->
  length (filter p l) <= length (filter q l).
Proof.
  intros Hpq. induction l as [| a l IH]; simpl; [lia |].
  destruct (p a) eqn:E.
  - rewrite (Hpq a E). simpl. lia.
  - destruct (q a); simpl; lia.
Qed.

(** Dropping the flow-run filter keeps every conjunct but that one. *)
Lemma clauses_without_run_filter q ff frf trf df wpf wqf db r :
  forallb (fun clause => clause db r)
    (q_where (_apply_flow_run_filters q ff frf trf df wpf wqf)) = true ->
  forallb (fun clause => clause db r)
    (q_where (_apply_flow_run_filters q ff None trf df wpf wqf)) = true.
Proof.
  unfold _apply_flow_run_filters, where_if.
  destruct ff, frf, trf, df, wpf, wqf; simpl;
    rewrite ?forallb_app; simpl; rewrite ?andb_true_iff; tauto.
Qed.

(** X12. A count never exceeds the number of stored runs, equals it when no
    filter is given, and can only grow when the flow-run filter is dropped. *)
Theorem count_bounds :
  forall (ff : option FlowFilter) (frf : option FlowRunFilter)
         (trf : option TaskRunFilter) (df : option DeploymentFilter)
         (wpf : option WorkPoolFilter) (wqf : option WorkQueueFilter)
         (db : Database),
    exists n m,
      count_flow_runs ff frf trf df wpf wqf db = (Returned n, db, []) /\
      count_flow_runs ff None trf df wpf wqf db = (Returned m, db, []) /\
      n <= m /\ m <= length (flow_run_table db) /\
      count_flow_runs None None None None None None db
        = (Returned (length (flow_run_table db)), db, []).
Proof.
  intros. rewrite !count_flow_runs_rows. eexists. eexists.
  split; [reflexivity |]. split; [reflexivity |]. split; [| split].
  - unfold matching. apply filter_length_mono. intros r.
    apply clauses_without_run_filter.
  - unfold matching. apply filter_length_le.
  - unfold matching. simpl. now rewrite filter_everything.
Qed.

End ListFacts.

(** ** More on the engine *)

Module EngineExtras.

Import FlowRuns EngineFacts.

(** The body of the block: which rules are on the stack when it ends, and
    how it ended. *)
Lemma with_body_shape (eng : Engine) (t : Transition) (orch glob : list Rule)
    (context : OrchestrationContext) c stack x ev :
  with_body eng t orch glob context = (c, stack, x, ev) ->
  exists entered rest,
    orch ++ glob = entered ++ rest /\
    stack = rev entered /\
    ((rest = [] /\ ev = map EvEnter entered ++ [EvValidate]) \/
     (exists r e rest',
        x = Some e /\ rest = r :: rest' /\
        ev = map EvEnter entered ++ [EvEnterRaised r e])).
Proof.
  unfold with_body. intros H.
  destruct (enter_rules t orch context []) as [[[c1 s1] x1] ev1] eqn:E1.
  apply enter_rules_shape in E1.
  destruct E1 as (en1 & rest1 & Hr1 & Hs1 & Hev1). rewrite app_nil_r in Hs1.
  destruct Hev1 as [(Hx1 & Hrest1 & Hev1) | (r & e & rest' & Hx1 & Hrest1 & Hev1)].
  - subst x1 rest1. rewrite app_nil_r in Hr1. subst orch.
    destruct (enter_rules t glob c1 s1) as [[[c2 s2] x2] ev2] eqn:E2.
    apply enter_rules_shape in E2.
    destruct E2 as (en2 & rest2 & Hr2 & Hs2 & Hev2).
    destruct Hev2 as [(Hx2 & Hrest2 & Hev2) | (r & e & rest' & Hx2 & Hrest2 & Hev2)].
    + subst x2 rest2. rewrite app_nil_r in Hr2. subst glob.
      exists (en1 ++ en2), []. rewrite app_nil_r.
      destruct (validate_proposed_state eng c2) as [c3 [u | e]];
        inversion H; subst; (split; [reflexivity |]);
        (split; [now rewrite rev_app_distr |]); left; split; trace_norm.
    + subst x2. inversion H; subst.
      exists (en1 ++ en2), (r :: rest').
      split; [now rewrite app_assoc |]. split; [now rewrite rev_app_distr |].
      right. exists r, e, rest'. repeat split. trace_norm.
  - subst x1. inversion H; subst.
    exists en1, ((r :: rest') ++ glob).
    split; [now rewrite app_assoc |]. split; [reflexivity |].
    right. exists r, e, (rest' ++ glob). repeat split.
Qed.

(** Quiet exits hand the pending exception on unchanged. *)
Lemma unwind_quiet (t : Transition) (stack : list Rule) :
  Forall quiet stack ->
  forall x context c x' ev,
    unwind t stack x context = (c, x', ev) -> x' = x.
Proof.
  induction 1 as [| cb stack Hq Hall IH]; simpl; intros x context c x' ev H.
  - now inversion H.
  - specialize (Hq t x context).
    destruct (aexit cb t x context) as [context' r]. simpl in Hq. subst r.
    destruct (unwind t stack x context') as [[c2 x2] ev2] eqn:E.
    inversion H; subst. eapply IH, E.
Qed.

Lemma validations_app (l1 l2 : list Event) :
  validations (l1 ++ l2) = (validations l1 + validations l2)%nat.
Proof. unfold validations. now rewrite filter_app, length_app. Qed.

Lemma validations_enter (l : list Rule) : validations (map EvEnter l) = 0%nat.
Proof. unfold validations. induction l; simpl; auto. Qed.

Lemma validations_exit (l : list Rule) : validations (map EvExit l) = 0%nat.
Proof. unfold validations. induction l; simpl; auto. Qed.

(** X13. On an id that no stored run has, [set_flow_run_state] raises
    [ObjectNotFoundError] for that id after the locking read: no rule is
    entered, nothing is validated or notified, nothing is written. *)
Theorem missing_run_is_not_found :
  forall (eng : Engine) (id : UUID) (state : option State) (force : bool)
         (policy : option Policy) (params : option (list (string * string)))
         (db : Database),
    (forall r, In r (flow_run_table db) -> fr_id r <> id) ->
    set_flow_run_state eng id state force policy params db
    = (Raised (ObjectNotFoundError id), db, [EvSelectForUpdate id]).
Proof.
  intros eng id state force policy params db Hmiss.
  apply set_flow_run_state_missing.
  rewrite read_flow_run_outcome. f_equal.
  apply RowExtras.find_absent. intros r Hr. apply Z.eqb_neq. now apply Hmiss.
Qed.

(** A concrete run: id 5 on the one-row table. *)
Lemma missing_run_is_not_found_witness :
  set_flow_run_state Examples.engine 5%Z (Some (Pending 1000%Z)) false None None
    Examples.one_run_db
  = (Raised (ObjectNotFoundError 5%Z), Examples.one_run_db, [EvSelectForUpdate 5%Z]).
Proof.
  apply (@missing_run_is_not_found Examples.engine 5%Z (Some (Pending 1000%Z)) false
           None None Examples.one_run_db).
  intros r [Hr | []]. rewrite <- Hr. vm_compute. discriminate.
Defined.

(** X14. In every attempt, [validate_proposed_state] is called at most once. *)
Theorem validation_at_most_once :
  forall (eng : Engine) (id : UUID) (state : option State) (force : bool)
         (policy : option Policy) (params : option (list (string * string)))
         (db : Database),
    (validations (events (set_flow_run_state eng id state force policy params db)) <= 1)%nat.
Proof.
  intros eng id state force policy params db.
  pose proof (read_flow_run_outcome id true db) as Hread.
  destruct (find (fun r => (fr_id r =? id)%Z) (flow_run_table db)) as [run |].
  - destruct (orchestrate eng (intended_transition run state)
                (orchestration_rules eng force policy (intended_transition run state))
                (global_rules eng (intended_transition run state))
                (build_context eng run state params)) as [[c x] ev] eqn:E.
    rewrite (set_flow_run_state_found eng state force policy params Hread E).
    apply orchestrate_shape in E.
    destruct E as (entered & rest & mid & _ & Hev & Hmid). subst ev.
    unfold events. simpl snd.
    change (validations (EvSelectForUpdate id :: ?l)) with (validations l).
    rewrite !validations_app, validations_enter, validations_exit.
    destruct Hmid as [[_ ->] | (r & e & rest' & _ & ->)];
      (destruct x; [| destruct (orchestration_error c);
                      [| destruct (response_status c)]]);
      cbn; lia.
  - rewrite (set_flow_run_state_missing eng state force policy params Hread).
    unfold events, validations. simpl. lia.
Qed.

(** The block as a whole, from its body and the unwinding of its stack. *)
Lemma orchestrate_from_body (eng : Engine) (t : Transition) (orch glob : list Rule)
    (context : OrchestrationContext) c1 stack x ev1 c2 x2 ev2 :
  with_body eng t orch glob context = (c1, stack, x, ev1) ->
  unwind t stack x c1 = (c2, x2, ev2) ->
  orchestrate eng t orch glob context = (c2, x2, ev1 ++ ev2).
Proof. unfold orchestrate. now intros -> ->. Qed.

Lemma quiet_stack (eng : Engine) (t : Transition) (orch glob : list Rule)
    (context : OrchestrationContext) c1 stack x ev1 :
  (forall r, In r (orch ++ glob) -> quiet r) ->
  with_body eng t orch glob context = (c1, stack, x, ev1) ->
  Forall quiet stack.
Proof.
  intros Hq Hb. apply with_body_shape in Hb.
  destruct Hb as (entered & rest & Hchain & -> & _).
  apply Forall_forall. intros r Hr. apply Hq. rewrite Hchain.
  apply in_or_app. left. now apply in_rev.
Qed.



(** X16. When no rule of the chain has an exit that raises or suppresses, a call
    that returns a result has entered every rule of the chain, the
    kind-specific ones first, has validated exactly once, and has left
    every rule again. *)
Theorem returned_result_was_validated :
  forall (eng : Engine) (id : UUID) (state : option State) (force : bool)
         (policy : option Policy) (params : option (list (string * string)))
         (db : Database) (run : FlowRun) (res : OrchestrationResult),
    outcome (read_flow_run id true db) = Returned (Some run) ->
    (forall r,
        In r (orchestration_rules eng force policy (intended_transition run state)
              ++ global_rules eng (intended_transition run state)) ->
        quiet r) ->
    outcome (set_flow_run_state eng id state force policy params db) = Returned res ->
    validations (events (set_flow_run_state eng id state force policy params db)) = 1%nat /\
    exists tail,
      events (set_flow_run_state eng id state force policy params db)
      = EvSelectForUpdate id ::
          map EvEnter (orchestration_rules eng force policy (intended_transition run state)
                       ++ global_rules eng (intended_transition run state))
          ++ [EvValidate]
          ++ map EvExit (rev (orchestration_rules eng force policy
                                (intended_transition run state)
                              ++ global_rules eng (intended_transition run state)))
          ++ tail /\
      (tail = [] \/ tail = [EvQueueNotifications (fr_id run)]).
Proof.
  intros eng id state force policy params db run res Hread Hq Hout.
  set (t := intended_transition run state) in *.
  set (chain := orchestration_rules eng force policy t ++ global_rules eng t) in *.
  destruct (with_body eng t (orchestration_rules eng force policy t) (global_rules eng t)
              (build_context eng run state params)) as [[[c1 stack] x] ev1] eqn:Eb.
  assert (Hstack : Forall quiet stack) by (eapply quiet_stack; eassumption).
  destruct (unwind t stack x c1) as [[c2 x2] ev2] eqn:Eu.
  assert (Hx : x2 = x) by (eapply unwind_quiet; eassumption). subst x2.
  assert (Hev : ev2 = map EvExit stack) by (eapply unwind_events; eassumption).
  subst ev2.
  pose proof (orchestrate_from_body _ _ _ _ _ Eb Eu) as E.
  rewrite (set_flow_run_state_found eng state force policy params Hread E) in *.
  unfold outcome in Hout. simpl in Hout.
  destruct x as [e |]; [discriminate Hout |].
  apply with_body_shape in Eb.
  destruct Eb as (entered & rest & Hchain & -> & Hev).
  destruct Hev as [[-> ->] | (r & e & rest' & Hx & _)]; [| discriminate Hx].
  fold chain in Hchain. rewrite app_nil_r in Hchain. subst entered.
  unfold events. simpl snd. split.
  - change (validations (EvSelectForUpdate id :: ?l)) with (validations l).
    rewrite !validations_app, validations_enter, validations_exit.
    destruct (orchestration_error c2); [reflexivity |].
    destruct (response_status c2); reflexivity.
  - eexists. split; [rewrite <- !app_assoc; reflexivity |].
    destruct (orchestration_error c2); [now left |].
    destruct (response_status c2); auto.
Qed.

(** A concrete run: the accepted proposal on the stored run. *)
Lemma returned_result_was_validated_witness :
  let run := Examples.stored_run 1%Z 900%Z in
  let state := Some (Pending 1000%Z) in
  let r := set_flow_run_state Examples.engine 1%Z state false None None
             Examples.one_run_db in
  validations (events r) = 1%nat /\
  exists tail,
    events r
    = EvSelectForUpdate 1%Z ::
        map EvEnter (orchestration_rules Examples.engine false None
                       (intended_transition run state)
                     ++ global_rules Examples.engine (intended_transition run state))
        ++ [EvValidate]
        ++ map EvExit (rev (orchestration_rules Examples.engine false None
                              (intended_transition run state)
                            ++ global_rules Examples.engine
                                 (intended_transition run state)))
        ++ tail /\
    (tail = [] \/ tail = [EvQueueNotifications (fr_id run)]).
Proof.
  intros run state r.
  apply (@returned_result_was_validated Examples.engine 1%Z state false None None
           Examples.one_run_db run
           {| res_state := Some (Pending 1000%Z);
              res_status := ACCEPT;
              res_details := "accepted" |}).
  - reflexivity.
  - intros x Hx. simpl in Hx.
    destruct Hx as [<- | []]; intros t y c; reflexivity.
  - reflexivity.
Defined.

End EngineExtras.

(** ** More on creation *)

Module CreateExtras.

Import FlowRuns CreateFacts.

Lemma same_key_none (a : option string) : same_key a None = false.
Proof. now destruct a. Qed.

Lemma same_key_eq (a b : option string) : same_key a b = true -> a = b.
Proof.
  destruct a as [x |], b as [y |]; simpl; try discriminate.
  intros H. apply String.eqb_eq in H. now subst.
Qed.

Lemma same_key_refl (k : option string) : truthy k = true -> same_key k k = true.
Proof. destruct k as [x |]; simpl; [intros _; apply String.eqb_refl | discriminate]. Qed.

Lemma no_conflict_without_key (flow_id : UUID) (l : list FlowRun) :
  existsb (conflicts flow_id None) l = false.
Proof.
  induction l as [| a l IH]; simpl; [reflexivity |].
  unfold conflicts at 1. now rewrite same_key_none, andb_false_r.
Qed.

Lemma find_last (A : Type) (p : A -> bool) (l : list A) (x : A) :
  (forall y, In y l -> p y = false) -> p x = true -> find p (l ++ [x]) = Some x.
Proof.
  intros Hl Hx. induction l as [| a l IH]; simpl; [now rewrite Hx |].
  rewrite (Hl a (or_introl eq_refl)). apply IH. intros y Hy. apply Hl. now right.
Qed.

Lemma existsb_find (A : Type) (p : A -> bool) (l : list A) :
  existsb p l = true -> exists x, find p l = Some x.
Proof.
  induction l as [| a l IH]; simpl; [discriminate |].
  destruct (p a); [intros _; now exists a | exact IH].
Qed.

Lemma existsb_false (A : Type) (p : A -> bool) (l : list A) :
  existsb p l = false -> forall y, In y l -> p y = false.
Proof.
  intros H y Hy. destruct (p y) eqn:E; [| reflexivity].
  assert (existsb p l = true) by (apply existsb_exists; now exists y). congruence.
Qed.

(** X17. Creating a run with neither idempotency key nor state, in a database
    whose stored ids the id generator has passed: the run is appended with
    the generator's id, the given fields and the call's timestamp, the
    engine is not involved, the run can be read back by its id, and the
    stored ids are again below the generator. *)
Theorem create_without_key_then_read :
  forall (eng : Engine) (now : DateTime) (flow_run : FlowRunCreate)
         (params : option (list (string * string))) (db : Database),
    frc_idempotency_key flow_run = None ->
    frc_state flow_run = None ->
    ids_below_next db ->
    exists model,
      create_flow_run eng now flow_run params db
      = (Returned model,
         with_flow_runs db (flow_run_table db ++ [model]) (next_id db + 1)%Z,
         []) /\
      fr_id model = next_id db /\
      fr_created model = now /\
      fr_state model = None /\
      fr_flow_id model = frc_flow_id flow_run /\
      fr_name model = frc_name flow_run /\
      outcome (read_flow_run (fr_id model) false
                 (final_db (create_flow_run eng now flow_run params db)))
      = Returned (Some model) /\
      ids_below_next (final_db (create_flow_run eng now flow_run params db)).
Proof.
  intros eng now flow_run params db Hkey Hstate Hids.
  exists (new_flow_run flow_run now (next_id db)).
  assert (Hcreate :
    create_flow_run eng now flow_run params db
    = (Returned (new_flow_run flow_run now (next_id db)),
       with_flow_runs db
         (flow_run_table db ++ [new_flow_run flow_run now (next_id db)])
         (next_id db + 1)%Z,
       [])).
  { unfold create_flow_run, bind, add_and_flush. rewrite Hkey. simpl.
    rewrite no_conflict_without_key. simpl. now rewrite Hstate. }
  rewrite Hcreate. split; [reflexivity |]. repeat split.
  - unfold outcome, final_db, read_flow_run. simpl. f_equal.
    apply find_last; [| apply Z.eqb_refl].
    intros y Hy. apply Z.eqb_neq. specialize (Hids y Hy). lia.
  - unfold ids_below_next, final_db. simpl. intros r Hr.
    apply in_app_or in Hr. destruct Hr as [Hr | [<- | []]].
    + specialize (Hids r Hr). lia.
    + simpl. lia.
Qed.

(** A concrete run: an ad-hoc run created in the one-row table. *)
Lemma create_without_key_then_read_witness :
  exists model,
    create_flow_run Examples.engine 1000%Z Samples.adhoc None Examples.one_run_db
    = (Returned model,
       with_flow_runs Examples.one_run_db
         (flow_run_table Examples.one_run_db ++ [model])
         (next_id Examples.one_run_db + 1)%Z,
       []) /\
    fr_id model = next_id Examples.one_run_db /\
    fr_created model = 1000%Z /\
    fr_state model = None /\
    fr_flow_id model = frc_flow_id Samples.adhoc /\
    fr_name model = frc_name Samples.adhoc /\
    outcome (read_flow_run (fr_id model) false
               (final_db (create_flow_run Examples.engine 1000%Z Samples.adhoc None
                            Examples.one_run_db)))
    = Returned (Some model) /\
    ids_below_next
      (final_db (create_flow_run Examples.engine 1000%Z Samples.adhoc None
                   Examples.one_run_db)).
Proof.
  apply (@create_without_key_then_read Examples.engine 1000%Z Samples.adhoc None
           Examples.one_run_db); [reflexivity | reflexivity |].
  intros r [<- | []]. simpl. lia.
Defined.

(** X18. Creating with an idempotency key and no state is idempotent: the call
    returns a run with the requested flow and key, adds at most one row,
    and a second call, at any time, returns the same run and writes
    nothing.  The engine is not involved in either call. *)
Theorem create_with_key_is_idempotent_without_state :
  forall (eng : Engine) (now1 now2 : DateTime) (flow_run : FlowRunCreate)
         (params : option (list (string * string))) (db : Database),
    truthy (frc_idempotency_key flow_run) = true ->
    frc_state flow_run = None ->
    exists model db1,
      create_flow_run eng now1 flow_run params db = (Returned model, db1, []) /\
      create_flow_run eng now2 flow_run params db1 = (Returned model, db1, []) /\
      fr_flow_id model = frc_flow_id flow_run /\
      fr_idempotency_key model = frc_idempotency_key flow_run /\
      length (flow_run_table db1) <= S (length (flow_run_table db)).
Proof.
  intros eng now1 now2 flow_run params db Hkey Hstate.
  set (p := fun r : FlowRun =>
              (fr_flow_id r =? frc_flow_id flow_run)%Z
              && same_key (fr_idempotency_key r) (frc_idempotency_key flow_run)).
  assert (Hstep : forall now d m,
            find p (flow_run_table d) = Some m ->
            create_flow_run eng now flow_run params d = (Returned m, d, [])).
  { intros now d m Hf.
    unfold create_flow_run, bind, insert_on_conflict_do_nothing, read_back, conflicts.
    rewrite Hkey. simpl. fold p. rewrite (find_existsb _ _ Hf), Hf. simpl.
    now rewrite Hstate. }
  assert (Hfields : forall m, p m = true ->
            fr_flow_id m = frc_flow_id flow_run /\
            fr_idempotency_key m = frc_idempotency_key flow_run).
  { intros m Hm. unfold p in Hm. apply andb_true_iff in Hm. destruct Hm as [H1 H2].
    split; [now apply Z.eqb_eq | now apply same_key_eq]. }
  destruct (existsb p (flow_run_table db)) eqn:Ex.
  - destruct (existsb_find _ _ Ex) as [m Hf].
    exists m, db. split; [now apply Hstep |]. split; [now apply Hstep |].
    apply find_some in Hf. destruct Hf as [_ Hm].
    destruct (Hfields m Hm). repeat split; auto.
  - set (m := new_flow_run flow_run now1 (next_id db)).
    set (db1 := with_flow_runs db (flow_run_table db ++ [m]) (next_id db + 1)%Z).
    assert (Hm : p m = true)
      by (unfold p, m; simpl; now rewrite Z.eqb_refl, same_key_refl).
    assert (Hf : find p (flow_run_table db1) = Some m)
      by (unfold db1; simpl; apply find_last; [now apply existsb_false | assumption]).
    exists m, db1. split; [| split; [now apply Hstep |]].
    + unfold create_flow_run, bind, insert_on_conflict_do_nothing, read_back, conflicts.
      rewrite Hkey. simpl. fold p. rewrite Ex. simpl. fold m. fold db1.
      change (find p (flow_run_table db ++ [m])) with (find p (flow_run_table db1)).
      rewrite Hf. simpl. now rewrite Hstate.
    + destruct (Hfields m Hm). repeat split; auto.
      unfold db1. simpl. rewrite length_app. simpl. lia.
Qed.

(** A concrete run: the nightly run, without a state, created twice. *)
Lemma create_with_key_is_idempotent_without_state_witness :
  exists model db1,
    create_flow_run Examples.engine 1000%Z Samples.nightly_stateless None Examples.empty_db
    = (Returned model, db1, []) /\
    create_flow_run Examples.engine 1000%Z Samples.nightly_stateless None db1
    = (Returned model, db1, []) /\
    fr_flow_id model = frc_flow_id Samples.nightly_stateless /\
    fr_idempotency_key model = frc_idempotency_key Samples.nightly_stateless /\
    length (flow_run_table db1) <= S (length (flow_run_table Examples.empty_db)).
Proof.
  apply (@create_with_key_is_idempotent_without_state Examples.engine 1000%Z 1000%Z
           Samples.nightly_stateless None Examples.empty_db); reflexivity.
Defined.

(** X19. A concrete run of [create_existing_run_skips_state]: the nightly run is
    stored with creation time 900 and submitted again at 1000. *)
Lemma create_existing_run_skips_state_witness :
  create_flow_run Examples.engine 1000%Z Examples.nightly None Examples.one_run_db
  = (Returned (Examples.stored_run 1%Z 900%Z), Examples.one_run_db, []).
Proof.
  apply (@create_existing_run_skips_state Examples.engine 1000%Z Examples.nightly None
           Examples.one_run_db (Examples.stored_run 1%Z 900%Z));
    [reflexivity | reflexivity | discriminate].
Defined.

(** X20. A concrete run of [create_existing_run_same_instant_applies_state]: the
    same submission at 900, the stored creation time. *)
Lemma create_existing_run_same_instant_applies_state_witness :
  events (create_flow_run Examples.engine 900%Z Examples.nightly None Examples.one_run_db)
  = events (set_flow_run_state Examples.engine 1%Z (Some (Pending 1000%Z)) true None None
              Examples.one_run_db).
Proof.
  apply (@create_existing_run_same_instant_applies_state Examples.engine 900%Z
           Examples.nightly None Examples.one_run_db (Examples.stored_run 1%Z 900%Z)
           (Pending 1000%Z)); reflexivity.
Defined.

(** X21. Creating a run with a state and no idempotency key inserts the run and
    then puts the state through a forced transition on the new id: the
    events of the creation are those of that transition, an error raised
    by the transition is raised by the creation, and otherwise the run is
    returned as it is stored after the transition. *)
Theorem new_run_state_goes_through_forced_transition :
  forall (eng : Engine) (now : DateTime) (flow_run : FlowRunCreate)
         (params : option (list (string * string))) (db : Database) (state : State),
    frc_idempotency_key flow_run = None ->
    frc_state flow_run = Some state ->
    let model := new_flow_run flow_run now (next_id db) in
    let db1 := with_flow_runs db (flow_run_table db ++ [model]) (next_id db + 1)%Z in
    let transition :=
      set_flow_run_state eng (next_id db) (Some state) true None params db1 in
    events (create_flow_run eng now flow_run params db) = events transition /\
    final_db (create_flow_run eng now flow_run params db) = final_db transition /\
    (forall e, outcome transition = Raised e ->
               outcome (create_flow_run eng now flow_run params db) = Raised e) /\
    (forall res, outcome transition = Returned res ->
       outcome (create_flow_run eng now flow_run params db)
       = Returned
           match find (fun r => (fr_id r =? next_id db)%Z)
                   (flow_run_table (final_db transition)) with
           | Some stored => stored
           | None => model
           end).
Proof.
  intros eng now flow_run params db state Hkey Hstate model db1 transition.
  unfold create_flow_run, bind, add_and_flush. rewrite Hkey. simpl.
  rewrite no_conflict_without_key. simpl. rewrite Hstate, Z.eqb_refl.
  fold model. fold db1. fold transition.
  destruct transition as [[[res | e] d] ev]; unfold events, final_db, outcome; simpl.
  - destruct (find _ (flow_run_table d)); simpl; rewrite app_nil_r;
      repeat split; intros; try discriminate; reflexivity.
  - repeat split; intros; try discriminate;
      try match goal with H : Raised _ = Raised _ |- _ => inversion H end;
      reflexivity.
Qed.

(** A concrete run: the ad-hoc run submitted with a PENDING state. *)
Lemma new_run_state_goes_through_forced_transition_witness :
  let flow_run :=
    {| frc_flow_id := 7%Z;
       frc_deployment_id := None;
       frc_work_queue_id := None;
       frc_name := "adhoc"%string;
       frc_tags := [];
       frc_idempotency_key := None;
       frc_state := Some (Pending 1000%Z) |} in
  let db := Examples.one_run_db in
  let model := new_flow_run flow_run 1000%Z (next_id db) in
  let db1 := with_flow_runs db (flow_run_table db ++ [model]) (next_id db + 1)%Z in
  let transition :=
    set_flow_run_state Examples.engine (next_id db) (Some (Pending 1000%Z)) true None None
      db1 in
  events (create_flow_run Examples.engine 1000%Z flow_run None db) = events transition /\
  final_db (create_flow_run Examples.engine 1000%Z flow_run None db) = final_db transition /\
  (forall e, outcome transition = Raised e ->
             outcome (create_flow_run Examples.engine 1000%Z flow_run None db) = Raised e) /\
  (forall res, outcome transition = Returned res ->
     outcome (create_flow_run Examples.engine 1000%Z flow_run None db)
     = Returned
         match find (fun r => (fr_id r =? next_id db)%Z)
                 (flow_run_table (final_db transition)) with
         | Some stored => stored
         | None => model
         end).
Proof.
  intros flow_run db model db1 transition.
  apply (@new_run_state_goes_through_forced_transition Examples.engine 1000%Z flow_run
           None db (Pending 1000%Z)); reflexivity.
Defined.

End CreateExtras.

(** ** The scheduled-task subscription *)

Module SubscriptionFacts.

Import Subscriptions.

(** The client acknowledging [n] task runs in a row. *)
Local Abbreviation acks n := (repeat (Reply (Some "ack"%string)) n).

Lemma serve_after_acks (acked : list TaskRun) :
  forall deliveries client,
    serve (acked ++ deliveries) (acks (length acked) ++ client)
    = (concat (map (fun t => [WsGet t; WsSend t]) acked) ++ fst (serve deliveries client),
       snd (serve deliveries client)).
Proof.
  induction acked as [| t acked IH]; intros deliveries client; simpl.
  - now destruct (serve deliveries client).
  - rewrite IH. reflexivity.
Qed.

Lemma taken_app (ev1 ev2 : list WsEvent) : taken (ev1 ++ ev2) = taken ev1 ++ taken ev2.
Proof.
  induction ev1 as [| e ev1 IH]; simpl; [reflexivity |].
  destruct e; simpl; now rewrite IH.
Qed.

Lemma retried_app (ev1 ev2 : list WsEvent) :
  retried (ev1 ++ ev2) = retried ev1 ++ retried ev2.
Proof.
  induction ev1 as [| e ev1 IH]; simpl; [reflexivity |].
  destruct e; simpl; now rewrite IH.
Qed.

Lemma taken_acked (acked : list TaskRun) :
  taken (concat (map (fun t => [WsGet t; WsSend t]) acked)) = acked.
Proof. induction acked as [| t acked IH]; simpl; [reflexivity | now rewrite IH]. Qed.

Lemma retried_acked (acked : list TaskRun) :
  retried (concat (map (fun t => [WsGet t; WsSend t]) acked)) = [].
Proof. induction acked as [| t acked IH]; simpl; [reflexivity | exact IH]. Qed.

Lemma sent_app (ev1 ev2 : list WsEvent) : sent (ev1 ++ ev2) = sent ev1 ++ sent ev2.
Proof.
  induction ev1 as [| e ev1 IH]; simpl; [reflexivity |].
  destruct e; simpl; now rewrite IH.
Qed.

Lemma sent_acked (acked : list TaskRun) :
  sent (concat (map (fun t => [WsGet t; WsSend t]) acked)) = acked.
Proof. induction acked as [| t acked IH]; simpl; [reflexivity | now rewrite IH]. Qed.

Lemma closed_acked (acked : list TaskRun) :
  ~ In WsClose (concat (map (fun t => [WsGet t; WsSend t]) acked)).
Proof.
  induction acked as [| t acked IH]; simpl; [tauto |].
  intros [H | [H | H]]; [discriminate H | discriminate H | now apply IH].
Qed.

(** X22. Every task run taken from the queue is accounted for.  The task runs
    taken are the first of the queue, in order: those the client
    acknowledged, followed by at most one more.  Only that last one can be
    put back for retry, under its own task key; and a task run that was
    taken but could not be sent is always put back. *)
Theorem subscription_accounts_for_every_task :
  forall (deliveries : list TaskRun) (client : list ClientStep),
    let ev := fst (serve deliveries client) in
    exists unacked later,
      deliveries = taken ev ++ later /\
      taken ev = acknowledged deliveries client ++ unacked /\
      length unacked <= 1 /\
      (retried ev = [] \/ retried ev = map (fun t => (tr_task_key t, t)) unacked) /\
      (sent ev = taken ev \/
       retried ev = map (fun t => (tr_task_key t, t)) unacked).
Proof.
  induction deliveries as [| t deliveries IH]; intros client; simpl.
  - exists [], []. repeat split; auto.
  - destruct client as [| [| | type |] client]; simpl.
    + exists [t], deliveries. repeat split; auto.
    + exists [t], deliveries. repeat split; auto.
    + exists [t], deliveries. repeat split; auto.
    + destruct (is_ack type) eqn:Hack.
      * specialize (IH client). simpl in IH.
        destruct (serve deliveries client) as [ev ending]. simpl in *.
        destruct IH as (unacked & later & Hd & Ht & Hlen & Hr & Hs).
        exists unacked, later. repeat split.
        -- now rewrite <- Hd.
        -- now rewrite Ht.
        -- assumption.
        -- assumption.
        -- destruct Hs as [Hs | Hs]; [left; now rewrite Hs | now right].
      * exists [t], deliveries. simpl. repeat split; auto.
    + exists [t], deliveries. repeat split; auto.
Qed.

(** X23. When the connection ends while a task run is being sent or while its
    acknowledgement is awaited, that task run, and no other, is put back
    for retry under its task key, the handler returns, and no later task
    run is taken from the queue. *)
Theorem disconnect_requeues_in_flight_task :
  forall (acked later : list TaskRun) (t : TaskRun) (step : ClientStep)
         (client : list ClientStep),
    step = SendDisconnect \/ step = AckDisconnect ->
    let r := serve (acked ++ t :: later) (acks (length acked) ++ step :: client) in
    snd r = Finished /\
    retried (fst r) = [(tr_task_key t, t)] /\
    taken (fst r) = acked ++ [t].
Proof.
  intros acked later t step client Hstep r. subst r.
  rewrite serve_after_acks. simpl fst. simpl snd.
  rewrite retried_app, taken_app, retried_acked, taken_acked.
  destruct Hstep as [-> | ->]; simpl; repeat split.
Qed.

(** A concrete run: the connection drops while the second task run awaits
    its acknowledgement. *)
Lemma disconnect_requeues_in_flight_task_witness :
  let a := Samples.task 11%Z "extract"%string in
  let b := Samples.task 12%Z "load"%string in
  let c := Samples.task 13%Z "report"%string in
  let r := serve ([a] ++ b :: [c]) (acks (length [a]) ++ AckDisconnect :: []) in
  snd r = Finished /\
  retried (fst r) = [(tr_task_key b, b)] /\
  taken (fst r) = [a] ++ [b].
Proof.
  intros a b c.
  apply (@disconnect_requeues_in_flight_task [a] [c] b AckDisconnect []).
  now right.
Defined.

(** X24. When the client answers a task run with anything but an
    acknowledgement, the handler closes the socket and returns, and no
    later task run is taken.  If the close call returns, the task run, which
    was sent, is not put back for retry.  If the connection ends during the
    close call, the handler catches the disconnect like any other: the task
    run is put back for retry under its task key. *)
Theorem other_reply_closes_or_requeues :
  forall (acked later : list TaskRun) (t : TaskRun) (client : list ClientStep),
    (forall type,
       is_ack type = false ->
       let r := serve (acked ++ t :: later)
                  (acks (length acked) ++ Reply type :: client) in
       snd r = Finished /\
       retried (fst r) = [] /\
       taken (fst r) = acked ++ [t] /\
       exists before, fst r = before ++ [WsSend t; WsClose])
    /\
    (let r := serve (acked ++ t :: later)
                (acks (length acked) ++ OtherReplyCloseDisconnect :: client) in
     snd r = Finished /\
     retried (fst r) = [(tr_task_key t, t)] /\
     taken (fst r) = acked ++ [t] /\
     sent (fst r) = acked ++ [t] /\
     ~ In WsClose (fst r)).
Proof.
  intros acked later t client. split.
  - intros type Hack r. subst r.
    rewrite serve_after_acks. simpl fst. simpl snd.
    rewrite retried_app, taken_app, retried_acked, taken_acked.
    simpl. rewrite Hack. simpl. repeat split.
    exists (concat (map (fun t0 => [WsGet t0; WsSend t0]) acked) ++ [WsGet t]).
    now rewrite <- app_assoc.
  - intros r. subst r.
    rewrite serve_after_acks. simpl fst. simpl snd.
    rewrite retried_app, taken_app, sent_app, retried_acked, taken_acked, sent_acked.
    simpl. repeat split.
    intros Hin. apply in_app_or in Hin. destruct Hin as [Hin | Hin].
    + now apply (closed_acked acked).
    + simpl in Hin. destruct Hin as [H | [H | [H | []]]]; discriminate H.
Qed.

(** Two concrete runs: the client answers the first task run with a message
    of another type; the socket is closed, or the connection ends first. *)
Example other_reply_runs :
  let a := Samples.task 11%Z "extract"%string in
  let b := Samples.task 12%Z "load"%string in
  serve [a; b] [Reply (Some "nack"%string)] = ([WsGet a; WsSend a; WsClose], Finished) /\
  serve [a; b] [OtherReplyCloseDisconnect]
  = ([WsGet a; WsSend a; WsRetry "extract" a], Finished).
Proof. split; reflexivity. Qed.

(** X25. A refused socket, a connection that ends before the subscription
    arrives, and a subscription with no keys all end the handler before it
    touches the queue; with at least one key the handler serves the queue. *)
Theorem subscription_needs_keys :
  forall (accepted : bool) (opening : Opening) (deliveries : list TaskRun)
         (client : list ClientStep),
    let r := scheduled_task_subscription accepted opening deliveries client in
    (accepted = false \/ opening = OpeningDisconnect \/
     opening = Subscribe None \/ opening = Subscribe (Some []) ->
     taken (fst r) = [] /\ sent (fst r) = [] /\ retried (fst r) = [] /\ snd r = Finished)
    /\
    (forall k ks, accepted = true -> opening = Subscribe (Some (k :: ks)) ->
                  r = serve deliveries client).
Proof.
  intros accepted opening deliveries client. simpl. split.
  - unfold scheduled_task_subscription.
    intros [H | [H | [H | H]]]; subst; try destruct accepted; simpl; repeat split.
  - intros k ks -> ->. reflexivity.
Qed.

(** A concrete run: a subscription that names no key. *)
Lemma subscription_needs_keys_witness :
  let r := scheduled_task_subscription true (Subscribe (Some []))
             [Samples.task 11%Z "extract"%string] [Reply (Some "ack"%string)] in
  taken (fst r) = [] /\ sent (fst r) = [] /\ retried (fst r) = [] /\ snd r = Finished.
Proof.
  intros r.
  apply (proj1 (subscription_needs_keys true (Subscribe (Some []))
                  [Samples.task 11%Z "extract"%string] [Reply (Some "ack"%string)])).
  now right; right; right.
Defined.

End SubscriptionFacts.

(** ** The dependency map *)

Module DependencyFacts.

Import Dependencies.

(** X26. For a flow run that is not stored, the dependency map fails with
    [ObjectNotFoundError] for that id before any task run is read: the
    outcome does not depend on the task-run layer, and nothing is written. *)
Theorem dependencies_of_missing_flow_run :
  forall (Input : Type) (list_of_set : list Input -> list Input)
         (models_read_task_runs : FlowRunFilter -> Session (list (LoadedTaskRun Input)))
         (flow_run_id : UUID) (db : Database),
    (forall r, In r (flow_run_table db) -> fr_id r <> flow_run_id) ->
    read_task_run_dependencies list_of_set models_read_task_runs flow_run_id db
    = (Raised (ObjectNotFoundError flow_run_id), db, []).
Proof.
  intros Input list_of_set models_read flow_run_id db Hmiss.
  unfold read_task_run_dependencies, bind, FlowRuns.read_flow_run.
  rewrite RowExtras.find_absent; [reflexivity |].
  intros r Hr. apply Z.eqb_neq. now apply Hmiss.
Qed.

(** A concrete run: flow run 5 is not in the one-row table. *)
Lemma dependencies_of_missing_flow_run_witness :
  read_task_run_dependencies (Samples.first_occurrences [])
    (fun _ => ret [Samples.loaded 21%Z []]) 5%Z Examples.one_run_db
  = (Raised (ObjectNotFoundError 5%Z), Examples.one_run_db, []).
Proof.
  apply (@dependencies_of_missing_flow_run Z (Samples.first_occurrences [])
           (fun _ => ret [Samples.loaded 21%Z []]) 5%Z Examples.one_run_db).
  intros r [Hr | []]. rewrite <- Hr. vm_compute. discriminate.
Defined.

(** X27. For a stored flow run, the dependency map has one entry per task run
    the task-run layer returns, in the same order and under the same id,
    name and state.  Each entry lists every upstream input of the task
    run, over all its input names, once; and a task run without a state
    is reported with a trackable result. *)
Theorem dependencies_one_node_per_task_run :
  forall (Input : Type) (list_of_set : list Input -> list Input)
         (models_read_task_runs : FlowRunFilter -> Session (list (LoadedTaskRun Input)))
         (flow_run_id : UUID) (db db1 : Database) (flow_run : FlowRun)
         (task_runs : list (LoadedTaskRun Input)) (ev : list Event),
    (forall l, NoDup (list_of_set l) /\ forall x, In x (list_of_set l) <-> In x l) ->
    outcome (FlowRuns.read_flow_run flow_run_id false db) = Returned (Some flow_run) ->
    models_read_task_runs (fun r => (fr_id r =? flow_run_id)%Z) db
    = (Returned task_runs, db1, ev) ->
    exists nodes,
      read_task_run_dependencies list_of_set models_read_task_runs flow_run_id db
      = (Returned nodes, db1, ev) /\
      Forall2
        (fun t n =>
           dn_id n = ltr_id t /\
           dn_name n = ltr_name t /\
           dn_state n = ltr_state t /\
           NoDup (dn_upstream_dependencies n) /\
           (forall x, In x (dn_upstream_dependencies n) <->
                      exists name inputs,
                        In (name, inputs) (ltr_task_inputs t) /\ In x inputs) /\
           (ltr_state t = None -> dn_untrackable_result n = false))
        task_runs nodes.
Proof.
  intros Input list_of_set models_read flow_run_id db db1 flow_run task_runs ev
         Hset Hread Htasks.
  unfold outcome, FlowRuns.read_flow_run in Hread. simpl in Hread.
  inversion Hread as [Hf]; clear Hread.
  exists (map (node list_of_set) task_runs). split.
  - unfold read_task_run_dependencies, bind, FlowRuns.read_flow_run.
    rewrite Hf, Htasks. simpl. now rewrite app_nil_r.
  - clear Htasks. induction task_runs as [| t task_runs IH]; simpl; constructor;
      [| exact IH].
    unfold node. simpl.
    destruct (Hset (concat (map snd (ltr_task_inputs t)))) as [Hnd Hin].
    repeat split; try assumption.
    + intros Hx. apply Hin in Hx. apply in_concat in Hx.
      destruct Hx as [inputs [Hl Hx]]. apply in_map_iff in Hl.
      destruct Hl as [[name inputs'] [Heq Hl]]. simpl in Heq. subst inputs'.
      now exists name, inputs.
    + intros [name [inputs [Hl Hx]]]. apply Hin. apply in_concat.
      exists inputs. split; [| assumption].
      apply in_map_iff. now exists (name, inputs).
    + now intros ->.
Qed.

Lemma first_occurrences_spec (l : list Z) :
  forall seen,
    NoDup (Samples.first_occurrences seen l) /\
    (forall x, In x (Samples.first_occurrences seen l) <-> In x l /\ ~ In x seen).
Proof.
  induction l as [| a l IH]; simpl; intros seen.
  - split; [constructor | intros x; tauto].
  - destruct (existsb (Z.eqb a) seen) eqn:E.
    + destruct (IH seen) as [Hnd Hin]. split; [assumption |].
      intros x. rewrite Hin. split; [tauto |].
      intros [[<- | Hx] Hs]; [| tauto].
      apply existsb_exists in E. destruct E as [y [Hy Heq]].
      apply Z.eqb_eq in Heq. subst. contradiction.
    + destruct (IH (a :: seen)) as [Hnd Hin]. split.
      * constructor; [| assumption]. rewrite Hin. simpl. tauto.
      * intros x. simpl. rewrite Hin. simpl.
        assert (Ha : ~ In a seen).
        { intros Ha.
          assert (existsb (Z.eqb a) seen = true)
            by (apply existsb_exists; exists a; split; [assumption | apply Z.eqb_refl]).
          congruence. }
        destruct (Z.eq_dec a x) as [-> | Hne]; [tauto |]. tauto.
Qed.

(** A concrete run: one task run with the same upstream input under two
    input names. *)
Lemma dependencies_one_node_per_task_run_witness :
  let t := Samples.loaded 21%Z [("x"%string, [3%Z; 4%Z]); ("y"%string, [3%Z])] in
  exists nodes,
    read_task_run_dependencies (Samples.first_occurrences [])
      (fun _ => ret [t]) 1%Z Examples.one_run_db
    = (Returned nodes, Examples.one_run_db, []) /\
    Forall2
      (fun t n =>
         dn_id n = ltr_id t /\
         dn_name n = ltr_name t /\
         dn_state n = ltr_state t /\
         NoDup (dn_upstream_dependencies n) /\
         (forall x, In x (dn_upstream_dependencies n) <->
                    exists name inputs,
                      In (name, inputs) (ltr_task_inputs t) /\ In x inputs) /\
         (ltr_state t = None -> dn_untrackable_result n = false))
      [t] nodes.
Proof.
  intros t.
  apply (@dependencies_one_node_per_task_run Z (Samples.first_occurrences [])
           (fun _ => ret [t]) 1%Z Examples.one_run_db Examples.one_run_db
           (Examples.stored_run 1%Z 900%Z) [t] []).
  - intros l. destruct (first_occurrences_spec l []) as [Hnd Hin].
    split; [assumption |]. intros x. rewrite Hin. simpl. tauto.
  - reflexivity.
  - reflexivity.
Defined.

End DependencyFacts.

(** ** The remaining task-run routes *)

Module RouteFacts.

Import TaskRunsApi TaskRunRoutes.

Local Open Scope Z_scope.

(** X28. The update, read and delete routes answer 404 exactly when the model
    layer reports that no task run has the id: the update and delete routes
    when it returns false, the read route when it returns nothing.  In that
    case the session's work is kept as the model layer left it; otherwise
    the routes return normally. *)
Theorem missing_task_run_is_404 :
  forall (TaskRunUpdate : Type)
         (models_update : UUID -> TaskRunUpdate -> Session bool)
         (models_read : UUID -> Session (option TaskRun))
         (models_delete : UUID -> Session bool)
         (task_run : TaskRunUpdate) (id : UUID) (db : Database),
    (forall found db1 ev,
        models_update id task_run db = (Returned found, db1, ev) ->
        update_task_run models_update task_run id db
        = (if found then Returned tt
           else Raised (HTTPException 404 "Task run not found"),
           db1, EvSessionOpen true :: ev)) /\
    (forall found db1 ev,
        models_read id db = (Returned found, db1, ev) ->
        read_task_run models_read id db
        = (match found with
           | Some t => Returned t
           | None => Raised (HTTPException 404 "Task not found")
           end,
           db1, EvSessionOpen false :: ev)) /\
    (forall found db1 ev,
        models_delete id db = (Returned found, db1, ev) ->
        delete_task_run models_delete id db
        = (if found then Returned tt
           else Raised (HTTPException 404 "Task not found"),
           db1, EvSessionOpen true :: ev)).
Proof.
  intros TaskRunUpdate models_update models_read models_delete task_run id db.
  split; [| split]; intros found db1 ev H.
  - unfold update_task_run, bind, session_context. rewrite H.
    destruct found; simpl; now rewrite app_nil_r.
  - unfold read_task_run, bind, session_context. rewrite H.
    destruct found; simpl; now rewrite app_nil_r.
  - unfold delete_task_run, bind, session_context. rewrite H.
    destruct found; simpl; now rewrite app_nil_r.
Qed.

(** A concrete run: the model layer finds no task run to update. *)
Lemma missing_task_run_is_404_witness :
  update_task_run (fun (_ : UUID) (_ : unit) => ret false) tt 31 Examples.one_run_db
  = (Raised (HTTPException 404 "Task run not found"),
     Examples.one_run_db, EvSessionOpen true :: []).
Proof.
  apply (proj1 (@missing_task_run_is_404 unit
                  (fun (_ : UUID) (_ : unit) => ret false)
                  (fun _ => ret None) (fun _ => ret false) tt 31 Examples.one_run_db)
           false Examples.one_run_db []).
  reflexivity.
Defined.

(** X29. The set-state route passes the orchestration result through unchanged
    and answers 201 exactly when the result carries a state stamped at or
    after the clock reading taken when the request arrived; a result with
    no state, or with an older state, is answered 200. *)
Theorem set_state_status_code :
  forall (models_set_state :
            UUID -> State -> bool -> option Policy -> option (list (string * string)) ->
            Session OrchestrationResult)
         (id : UUID) (state : StateCreate) (force : bool) (policy : option Policy)
         (params : option (list (string * string))) (now parsed_at : DateTime)
         (db db1 : Database) (result : OrchestrationResult) (ev : list Event),
    models_set_state id (parse_obj state parsed_at) force policy params db
    = (Returned result, db1, ev) ->
    exists code,
      set_task_run_state models_set_state id state force policy params now parsed_at db
      = (Returned (code, result), db1, EvSessionOpen true :: ev) /\
      (code = 201 \/ code = 200) /\
      (code = 201 <->
       exists s, res_state result = Some s /\ now <= state_timestamp s).
Proof.
  intros models_set_state id state force policy params now parsed_at db db1 result ev H.
  unfold set_task_run_state, bind, session_context. rewrite H. simpl.
  rewrite app_nil_r. eexists. split; [reflexivity |].
  destruct (res_state result) as [s |]; [destruct (now <=? state_timestamp s) eqn:E |];
    (split; [auto |]); split; intros Hc; try discriminate Hc; try reflexivity.
  - exists s. split; [reflexivity | now apply Z.leb_le].
  - destruct Hc as [s' [Hs Hle]]. inversion Hs; subst s'.
    apply Z.leb_le in Hle. congruence.
  - destruct Hc as [s' [Hs _]]. discriminate Hs.
Qed.

(** A concrete run: an accepted proposal whose state is stamped after the
    request arrived. *)
Lemma set_state_status_code_witness :
  let accept := fun (_ : UUID) (s : State) (_ : bool) (_ : option Policy)
                    (_ : option (list (string * string))) =>
      ret {| res_state := Some s; res_status := ACCEPT; res_details := "accepted" |} in
  let state := {| sc_type := RUNNING; sc_message := None |} in
  exists code,
    set_task_run_state accept 31 state false None None 1000 1001 Examples.one_run_db
    = (Returned (code,
                 {| res_state := Some (parse_obj state 1001);
                    res_status := ACCEPT;
                    res_details := "accepted" |}),
       Examples.one_run_db, EvSessionOpen true :: []) /\
    (code = 201 \/ code = 200) /\
    (code = 201 <->
     exists s, Some (parse_obj state 1001) = Some s /\ 1000 <= state_timestamp s).
Proof.
  intros accept state.
  apply (@set_state_status_code accept 31 state false None None 1000 1001
           Examples.one_run_db Examples.one_run_db
           {| res_state := Some (parse_obj state 1001);
              res_status := ACCEPT;
              res_details := "accepted" |} []).
  reflexivity.
Defined.

End RouteFacts.
